(* ===================================================================== *)
(* waController.js: session registry, reconnection policy, SSE fan-out    *)
(* and command dispatch of the WhatsApp gateway, as a shallow embedding.  *)
(*                                                                       *)
(* The controller keeps three process-wide tables                         *)
(*     sessions      apiKey -> socket                                     *)
(*     reconnecting  apiKey -> boolean                                    *)
(*     sseClients    apiKey -> Set of SSE response objects                *)
(* and talks to four collaborators: the Baileys socket, the session       *)
(* directory on disk, the Log/User models and the SSE response streams.   *)
(* Each handler is embedded as a function on an explicit [State]; every   *)
(* call to a collaborator is appended to [trace], and what a collaborator *)
(* answers is read from a [World].  The transition system runs a handler *)
(* from its first line to its last; createSocketForUser is also given in  *)
(* the two parts its awaits cut it into, so that calls which overlap can  *)
(* be followed.                                                           *)
(* ===================================================================== *)

From Stdlib Require Import ZArith String Ascii List Bool Lia.
From stdpp Require Import gmap strings list fin_maps.

Local Open Scope string_scope.
Local Set Warnings "-register-all".

(* --------------------------------------------------------------------- *)
(* JavaScript values as they reach the controller (parsed JSON bodies,    *)
(* query strings, collaborator results).                                  *)
(* --------------------------------------------------------------------- *)

Inductive JsVal : Type :=
| JUndefined
| JNull
| JBool (b : bool)
| JNum (n : Z)
| JStr (s : string)
| JArr (items : list JsVal)
| JObj (fields : list (string * JsVal)).

(* ToBoolean: what [if (v)] and [!v] test.  A number is falsy when it is
   0; the numbers of a JSON body that are not integers are all truthy and
   are not told apart here. *)
Definition truthy (v : JsVal) : bool :=
  match v with
  | JUndefined | JNull => false
  | JBool b => b
  | JNum n => negb (n =? 0)%Z
  | JStr s => negb (s =? EmptyString)
  | JArr _ | JObj _ => true
  end.

(* [v === n] for a number n, [v === s] for a string s. *)
Definition strict_eq_num (v : JsVal) (n : Z) : bool :=
  match v with JNum m => (m =? n)%Z | _ => false end.

Definition strict_eq_str (v : JsVal) (s : string) : bool :=
  match v with JStr t => (t =? s) | _ => false end.

(* Property read [o.name] / destructuring [const { name } = o]. *)
Fixpoint assoc (name : string) (fields : list (string * JsVal)) : JsVal :=
  match fields with
  | [] => JUndefined
  | (n, v) :: rest => if n =? name then v else assoc name rest
  end.

Definition get_field (o : JsVal) (name : string) : JsVal :=
  match o with JObj fields => assoc name fields | _ => JUndefined end.

(* [a || b] *)
Definition js_or (a b : JsVal) : JsVal := if truthy a then a else b.

(* String.prototype.includes and String.prototype.replace(pattern, by)
   with a string pattern (first occurrence only). *)
Definition includes (pat s : string) : bool :=
  match String.index 0 pat s with Some _ => true | None => false end.

Definition replace_first (pat by_ s : string) : string :=
  match String.index 0 pat s with
  | Some i =>
      String.substring 0 i s +:+ by_ +:+
      String.substring (i + String.length pat)
                       (String.length s - (i + String.length pat)) s
  | None => s
  end.

Definition nl : string := String (ascii_of_nat 10) EmptyString.

(* --------------------------------------------------------------------- *)
(* Identities, effects, collaborators                                     *)
(* --------------------------------------------------------------------- *)

(* A socket is the n-th object returned by makeWASocket; an SSE sink is an
   Express response object. *)
Definition Sock := nat.
Definition Sink := nat.
Definition Blob := string.

(* req.user as set by verifyApiKey; apiKey is a dash-less uuid. *)
Record User := mkUser { user_id : nat; apiKey : string }.

(* A promise settled by a collaborator. *)
Inductive Outcome : Type :=
| Resolved (v : JsVal)
| Rejected (message : JsVal).

Inductive Effect : Type :=
| MakeSocket (k : string) (s : Sock)
| SockCall (s : Sock) (method : string) (args : list JsVal) (o : Outcome)
| SseWrite (r : Sink) (chunk : string) (ok : bool)
| LogCreate (userId : nat) (event : string)
| SetTimeout (k : string) (ms : Z)
| HttpGet (url : JsVal) (o : Outcome)
| WriteFile (path : string) (data : JsVal)
| RmSync (k : string) (ok : bool)
| UserLookup (k : string).

(* The collaborators' answers.  The leading [nat] of an answer is the
   number of effects performed so far, so the same question may be
   answered differently at different moments. *)
Record World := mkWorld {
  (* DisconnectReason.loggedOut of @whiskeysockets/baileys *)
  loggedOut : Z;
  (* sock.<method>(...args) *)
  sock_call : nat -> Sock -> string -> list JsVal -> Outcome;
  (* useMultiFileAuthState + makeWASocket: None, or the error thrown *)
  open_error : nat -> string -> option JsVal;
  (* res.write(chunk): false when it throws *)
  write_ok : nat -> Sink -> string -> bool;
  (* User.findOne({ where: { apiKey } }): None for null or a rejection *)
  findOne : nat -> string -> option User;
  (* sock?.ws?.readyState *)
  readyState : nat -> Sock -> JsVal;
  (* sock.chats, sock.contacts, typeof sock.fetchMessages === "function" *)
  sock_prop : Sock -> string -> JsVal;
  has_fetchMessages : Sock -> bool;
  (* axios.get(url, { responseType: "arraybuffer" }) then Buffer.from *)
  http_get : nat -> JsVal -> Outcome;
  (* Buffer.from(base64, "base64"): the buffer, or the TypeError thrown for
     a value that is neither a string nor a buffer or array *)
  buffer_from_base64 : JsVal -> Outcome;
  (* path.extname(filename).toLowerCase(): the extension as a string, or
     the TypeError thrown for a filename that is not a string *)
  extname_lower : JsVal -> Outcome;
  (* Object.keys *)
  object_keys : JsVal -> list string;
  (* parseInt *)
  parseInt : JsVal -> JsVal;
  (* JSON.stringify *)
  stringify : JsVal -> string;
  (* qrcode.toDataURL: None when it rejects *)
  toDataURL : JsVal -> option string;
  (* Buffer.from(s).toString("base64") *)
  base64 : JsVal -> string;
  (* new Date().toISOString(), String(Date.now()) *)
  now_iso : nat -> string;
  now_ms : nat -> string;
  (* fs.rmSync(baileys/sessions/{apiKey}, { recursive, force }) throws *)
  rm_fails : nat -> string -> bool;
  (* the message of the error thrown by res.write when it throws *)
  write_error : nat -> Sink -> string -> JsVal;
  (* path.join("downloads", fileName), normalised *)
  path_join : string -> string -> string;
  (* fs.existsSync / fs.mkdirSync("downloads") / fs.writeFileSync(path):
     None, or the error thrown *)
  write_file_error : nat -> string -> option JsVal
}.

(* --------------------------------------------------------------------- *)
(* Internal state                                                         *)
(* --------------------------------------------------------------------- *)

Record State := mkState {
  sessions : gmap string Sock;
  reconnecting : gmap string bool;
  (* a JS Set iterates in insertion order: a duplicate-free list *)
  sseClients : gmap string (list Sink);
  (* baileys/sessions/{apiKey}: present when the directory exists, with
     the credentials last saved into it, if any *)
  session_dirs : gmap string (option Blob);
  (* callbacks handed to setTimeout and not yet run: tenant and delay *)
  timers : list (string * Z);
  (* sockets made so far *)
  next_sock : nat;
  trace : list Effect
}.

Definition init : State :=
  mkState ∅ ∅ ∅ ∅ [] 0 [].

Definition set_sessions (f : gmap string Sock -> gmap string Sock) (st : State) : State :=
  mkState (f (sessions st)) (reconnecting st) (sseClients st) (session_dirs st)
          (timers st) (next_sock st) (trace st).

Definition set_reconnecting (f : gmap string bool -> gmap string bool) (st : State) : State :=
  mkState (sessions st) (f (reconnecting st)) (sseClients st) (session_dirs st)
          (timers st) (next_sock st) (trace st).

Definition set_sseClients (f : gmap string (list Sink) -> gmap string (list Sink))
    (st : State) : State :=
  mkState (sessions st) (reconnecting st) (f (sseClients st)) (session_dirs st)
          (timers st) (next_sock st) (trace st).

Definition set_session_dirs
    (f : gmap string (option Blob) -> gmap string (option Blob)) (st : State) : State :=
  mkState (sessions st) (reconnecting st) (sseClients st) (f (session_dirs st))
          (timers st) (next_sock st) (trace st).

Definition set_timers (f : list (string * Z) -> list (string * Z)) (st : State) : State :=
  mkState (sessions st) (reconnecting st) (sseClients st) (session_dirs st)
          (f (timers st)) (next_sock st) (trace st).

Definition set_next_sock (n : nat) (st : State) : State :=
  mkState (sessions st) (reconnecting st) (sseClients st) (session_dirs st)
          (timers st) n (trace st).

Definition emit (e : Effect) (st : State) : State :=
  mkState (sessions st) (reconnecting st) (sseClients st) (session_dirs st)
          (timers st) (next_sock st) (trace st ++ [e])%list.

(* The moment, as the collaborators see it. *)
Definition clock (st : State) : nat := length (trace st).

(* --------------------------------------------------------------------- *)
(* A state monad with exceptions: async functions that may throw          *)
(* --------------------------------------------------------------------- *)

Inductive Result (A : Type) : Type :=
| Ok (a : A)
| Throw (err : JsVal).
Arguments Ok {A} a.
Arguments Throw {A} err.

Definition M (A : Type) : Type := State -> Result A * State.

Definition ret {A} (a : A) : M A := fun st => (Ok a, st).
Definition throw {A} (err : JsVal) : M A := fun st => (Throw err, st).

Definition bind {A B} (c : M A) (k : A -> M B) : M B :=
  fun st =>
    match c st with
    | (Ok a, st1) => k a st1
    | (Throw err, st1) => (Throw err, st1)
    end.

(* try { c } catch (err) { h err } *)
Definition try_catch {A} (c : M A) (h : JsVal -> M A) : M A :=
  fun st =>
    match c st with
    | (Ok a, st1) => (Ok a, st1)
    | (Throw err, st1) => h err st1
    end.

Definition gets {A} (f : State -> A) : M A := fun st => (Ok (f st), st).
Definition modify (f : State -> State) : M unit := fun st => (Ok tt, f st).

Notation "'let!' x := c 'in' k" := (bind c (fun x => k))
  (at level 10, x name, c at level 100, k at level 200).
Notation "'run!' c 'in' k" := (bind c (fun _ => k))
  (at level 10, c at level 100, k at level 200).

(* --------------------------------------------------------------------- *)
(* Helpers                                                                *)
(* --------------------------------------------------------------------- *)

(* saveLog: Log.create inside try/catch; never throws. *)
Definition saveLog (userId : nat) (event : string) (st : State) : State :=
  emit (LogCreate userId event) st.

(* const payload = typeof data === "string" ? data : JSON.stringify(data) *)
Definition sse_payload (w : World) (data : JsVal) : string :=
  match data with JStr s => s | _ => stringify w data end.

(* `event: ${eventName}\n` and `data: ${payload}\n\n` *)
Definition event_line (eventName : string) : string := "event: " +:+ eventName +:+ nl.
Definition data_line (payload : string) : string := "data: " +:+ payload +:+ nl +:+ nl.

(* One pass of the loop body of sendSSE for one client: the two writes sit
   in one try block, so the second is skipped when the first throws; the
   catch is empty ("ignore broken clients"). *)
Definition sse_write (w : World) (eventName payload : string) (res : Sink)
    (st : State) : State :=
  let line1 := event_line eventName in
  let line2 := data_line payload in
  let ok1 := write_ok w (clock st) res line1 in
  let st1 := emit (SseWrite res line1 ok1) st in
  if ok1
  then emit (SseWrite res line2 (write_ok w (clock st1) res line2)) st1
  else st1.

Fixpoint sse_write_all (w : World) (eventName payload : string)
    (clients : list Sink) (st : State) : State :=
  match clients with
  | [] => st
  | res :: rest =>
      sse_write_all w eventName payload rest (sse_write w eventName payload res st)
  end.

Definition sendSSE (w : World) (k eventName : string) (data : JsVal)
    (st : State) : State :=
  match sseClients st !! k with
  | None => st
  | Some clients => sse_write_all w eventName (sse_payload w data) clients st
  end.

(* qrStringToDataUrl, with its text/plain fallback *)
Definition qrStringToDataUrl (w : World) (qrString : JsVal) : string :=
  match toDataURL w qrString with
  | Some dataUrl => dataUrl
  | None => "data:text/plain;base64," +:+ base64 w qrString
  end.

(* ensureSessionDir: mkdir -p baileys/sessions/{apiKey} unless it exists *)
Definition ensureSessionDir (k : string) (st : State) : State :=
  match session_dirs st !! k with
  | Some _ => st
  | None => set_session_dirs (insert k None) st
  end.

(* fs.rmSync(sessDir, { recursive: true, force: true }) inside a try whose
   catch goes on: when it throws, the directory is left as it is. *)
Definition rmSessionDir (w : World) (k : string) (st : State) : State :=
  let ok := negb (rm_fails w (clock st) k) in
  let st1 := emit (RmSync k ok) st in
  if ok then set_session_dirs (delete k) st1 else st1.

(* A method call on a socket: recorded, and settled by the world.  The
   methods of a socket return promises; none throws before returning
   one. *)
Definition call (w : World) (sock : Sock) (method : string) (args : list JsVal)
    : M JsVal :=
  fun st =>
    let o := sock_call w (clock st) sock method args in
    let st1 := emit (SockCall sock method args o) st in
    match o with
    | Resolved v => (Ok v, st1)
    | Rejected err => (Throw err, st1)
    end.

(* --------------------------------------------------------------------- *)
(* Create or reuse socket for `user`                                      *)
(* --------------------------------------------------------------------- *)

(* Up to the first await (lines 74-77): the registered socket when there
   is one; otherwise the directory is ensured and the call is suspended in
   fetchLatestBaileysVersion, then in useMultiFileAuthState. *)
Definition createSocketForUser_enter (user : User) (st : State)
    : option Sock * State :=
  let k := apiKey user in
  match sessions st !! k with
  | Some sock => (Some sock, st)
  | None => (None, ensureSessionDir k st)
  end.

(* After the awaits (lines 88-189): the socket is made and written into the
   registry without a second look at it.  A failure of
   fetchLatestBaileysVersion only leaves version undefined. *)
Definition createSocketForUser_resume (w : World) (user : User) : M Sock :=
  fun st1 =>
    let k := apiKey user in
    match open_error w (clock st1) k with
    | Some err => (Throw err, st1)
    | None =>
        let sock := next_sock st1 in
        let st2 := emit (MakeSocket k sock) (set_next_sock (S sock) st1) in
        (Ok sock, set_sessions (insert k sock) st2)
    end.

(* The call when nothing else runs while it is suspended. *)
Definition createSocketForUser (w : World) (user : User) : M Sock :=
  fun st =>
    match createSocketForUser_enter user st with
    | (Some sock, st') => (Ok sock, st')
    | (None, st1) => createSocketForUser_resume w user st1
    end.

(* --------------------------------------------------------------------- *)
(* Socket event handlers registered by createSocketForUser                *)
(* --------------------------------------------------------------------- *)

(* A connection.update event, as the handler reads it:
   { connection, lastDisconnect, qr } with
   statusCode = lastDisconnect?.error?.output?.statusCode. *)
Record Update := mkUpdate {
  connection : JsVal;
  statusCode : JsVal;
  qr : JsVal
}.

Definition ts_obj (w : World) (st : State) : JsVal :=
  JObj [("ts", JStr (now_iso w (clock st)))].

Definition on_qr (w : World) (user : User) (update : Update) (st : State) : State :=
  if truthy (qr update) then
    let dataUrl := qrStringToDataUrl w (qr update) in
    let st1 := saveLog (user_id user) "qr_generated" st in
    sendSSE w (apiKey user) "qr"
      (JObj [("qrDataUrl", JStr dataUrl); ("ts", JStr (now_iso w (clock st1)))]) st1
  else st.

Definition on_open (w : World) (user : User) (update : Update) (st : State) : State :=
  if strict_eq_str (connection update) "open" then
    let st1 := sendSSE w (apiKey user) "connected" (ts_obj w st) st in
    let st2 := saveLog (user_id user) "connection_open" st1 in
    sendSSE w (apiKey user) "qr_cleared" (JObj []) st2
  else st.

(* logged out -> cleanup session files and socket *)
Definition cleanup_logged_out (w : World) (user : User) (st : State) : State :=
  let k := apiKey user in
  let st1 := saveLog (user_id user) "logged_out" st in
  let st2 :=
    match sessions st1 !! k with
    | Some sock =>
        (* await sessions[apiKey].logout().catch(() => {}) *)
        let st' := snd (call w sock "logout" [] st1) in
        set_sessions (delete k) st'
    | None => st1
    end in
  let st3 := rmSessionDir w k st2 in
  sendSSE w k "logged_out" (JObj []) st3.

(* try reconnect *)
Definition schedule_reconnect (k : string) (st : State) : State :=
  match reconnecting st !! k with
  | Some true => st
  | _ =>
      let st1 := set_reconnecting (insert k true) st in
      emit (SetTimeout k 3000) (set_timers (fun ts => (ts ++ [(k, 3000%Z)])%list) st1)
  end.

Definition on_close (w : World) (user : User) (update : Update) (st : State) : State :=
  if strict_eq_str (connection update) "close" then
    let st1 := saveLog (user_id user) "connection_close" st in
    if strict_eq_num (statusCode update) (loggedOut w)
    then cleanup_logged_out w user st1
    else schedule_reconnect (apiKey user) st1
  else st.

Definition on_connection_update (w : World) (user : User) (update : Update)
    (st : State) : State :=
  let st1 := saveLog (user_id user) "connection_update" st in
  let st2 := on_qr w user update st1 in
  let st3 := on_open w user update st2 in
  on_close w user update st3.

(* The callback given to setTimeout by the close branch. *)
Definition reconnect_callback (w : World) (k : string) (st : State) : State :=
  let st1 := emit (UserLookup k) st in
  let st2 :=
    match findOne w (clock st) k with
    | Some freshUser => snd (createSocketForUser w freshUser st1)
    | None => st1
    end in
  set_reconnecting (insert k false) st2.

(* creds.update -> saveCreds of useMultiFileAuthState: writes creds.json
   into the tenant's directory. *)
Definition on_creds_update (k : string) (creds : Blob) (st : State) : State :=
  match session_dirs st !! k with
  | Some _ => set_session_dirs (insert k (Some creds)) st
  | None => st
  end.

(* A property read on null or undefined throws a TypeError. *)
Definition nullish (v : JsVal) : bool :=
  match v with JUndefined | JNull => true | _ => false end.

Definition type_error : JsVal := JStr "TypeError".

(* messages.upsert: m = { type, messages }, each message read through
   msg.key = { remoteJid, participant, id }.  One pass of the loop body:
   msg.key throws for a message that is null or undefined; a rejected
   sendReadReceipt is ignored. *)
Definition read_receipt (w : World) (sock : Sock) (msg : JsVal) : M unit :=
  fun st =>
    if nullish msg then (Throw type_error, st)
    else
      let key := get_field msg "key" in
      if negb (truthy key) || strict_eq_str (get_field key "remoteJid") "status@broadcast"
      then (Ok tt, st)
      else
        let jid := get_field key "remoteJid" in
        let participant :=
          match get_field key "participant" with
          | JUndefined | JNull => jid
          | p => p
          end in
        (Ok tt, snd (call w sock "sendReadReceipt"
                       [jid; participant; JArr [get_field key "id"]] st)).

(* for (const msg of msgs) { ... } *)
Fixpoint read_receipts (w : World) (sock : Sock) (msgs : list JsVal) : M unit :=
  match msgs with
  | [] => ret tt
  | msg :: rest => run! read_receipt w sock msg in read_receipts w sock rest
  end.

(* Whatever is thrown inside the handler ends it: the catch only logs to
   the console. *)
Definition on_messages_upsert (w : World) (user : User) (sock : Sock) (m : JsVal)
    (st : State) : State :=
  let st1 := saveLog (user_id user) "message_in" st in
  let push := sendSSE w (apiKey user) "message" (JObj [("event", m)]) in
  (* m.type *)
  if nullish m then st1
  else if strict_eq_str (get_field m "type") "notify" then
    match js_or (get_field m "messages") (JArr []) with
    | JArr msgs =>
        match read_receipts w sock msgs st1 with
        | (Ok _, st2) => push st2
        | (Throw _, st2) => st2
        end
    (* the characters of a string have no key *)
    | JStr _ => push st1
    (* for..of over anything else throws *)
    | _ => st1
    end
  else push st1.

(* --------------------------------------------------------------------- *)
(* Requests and responses                                                 *)
(* --------------------------------------------------------------------- *)

(* req.user, req.body and req.query (express.json() makes body an object) *)
Record Request := mkRequest {
  req_user : User;
  body : list (string * JsVal);
  query : list (string * JsVal)
}.

(* res.status(code).json(payload); res.json(payload) is status 200 *)
Inductive Response : Type :=
| Json (status : Z) (payload : JsVal).

Definition error (code : Z) (message : string) : Response :=
  Json code (JObj [("error", JStr message)]).

(* catch (err) { res.status(500).json({ error: err.message }) }:
   a thrown value is carried as its message. *)
Definition error500 (err : JsVal) : Response :=
  Json 500 (JObj [("error", err)]).

Definition success (extra : list (string * JsVal)) : Response :=
  Json 200 (JObj (("success", JBool true) :: extra)).

(* An Express handler whose body is one try/catch answering 500. *)
Definition handler (c : M Response) (st : State) : Response * State :=
  match c st with
  | (Ok r, st1) => (r, st1)
  | (Throw err, st1) => (error500 err, st1)
  end.

Definition log (userId : nat) (event : string) : M unit :=
  modify (saveLog userId event).

Definition not_connected : Response := error 400 "Session not connected".

(* --------------------------------------------------------------------- *)
(* SSE endpoint /wa/qr-stream                                             *)
(* --------------------------------------------------------------------- *)

(* Set.prototype.add *)
Definition set_add (res : Sink) (clients : list Sink) : list Sink :=
  if decide (res ∈ clients) then clients else (clients ++ [res])%list.

(* Set.prototype.delete *)
Definition set_delete (res : Sink) (clients : list Sink) : list Sink :=
  filter (fun r => r ≠ res) clients.

(* qrSSE, for a string apiKey taken from the header or the query; the
   empty string is the missing key.  The initial ack is written to the new
   sink; a throw there is answered by the handler's catch with
   res.status(500).json({ error: err.message }). *)
Definition qrSSE (w : World) (k : string) (res : Sink) (st : State)
    : option Response * State :=
  if negb (truthy (JStr k))
  then (Some (error 401 "x-api-key header or ?apiKey required"), st)
  else
    let st1 :=
      match sseClients st !! k with
      | Some _ => st
      | None => set_sseClients (insert k []) st
      end in
    let st2 := set_sseClients (alter (set_add res) k) st1 in
    let line1 := "event: connected" +:+ nl in
    let ok1 := write_ok w (clock st2) res line1 in
    let st3 := emit (SseWrite res line1 ok1) st2 in
    if ok1 then
      let line2 := "data: " +:+ stringify w (ts_obj w st3) +:+ nl +:+ nl in
      let ok2 := write_ok w (clock st3) res line2 in
      let st4 := emit (SseWrite res line2 ok2) st3 in
      if ok2 then (None, st4)
      else (Some (error500 (write_error w (clock st3) res line2)), st4)
    else (Some (error500 (write_error w (clock st2) res line1)), st3).

(* req.on("close"): cleanup *)
Definition on_sse_close (k : string) (res : Sink) (st : State) : State :=
  match sseClients st !! k with
  | Some setClients =>
      let remaining := set_delete res setClients in
      if Nat.eqb (length remaining) 0
      then set_sseClients (delete k) st
      else set_sseClients (insert k remaining) st
  | None => st
  end.

(* heartbeat comment every 25s *)
Definition ping (w : World) (res : Sink) (st : State) : State :=
  let chunk := ":" +:+ nl +:+ nl in
  emit (SseWrite res chunk (write_ok w (clock st) res chunk)) st.

(* --------------------------------------------------------------------- *)
(* REST endpoints                                                         *)
(* --------------------------------------------------------------------- *)

(* POST /wa/connect *)
Definition connect (w : World) (req : Request) : State -> Response * State :=
  handler (
    let! _ := createSocketForUser w (req_user req) in
    ret (success [("message",
      JStr "Socket initiating. Subscribe to /wa/qr-stream (SSE) to receive QR & events.")])).

(* const connected = !!sock && sock?.ws?.readyState === 1 *)
Definition connected (w : World) (k : string) (st : State) : bool :=
  match sessions st !! k with
  | Some sock => strict_eq_num (readyState w (clock st) sock) 1
  | None => false
  end.

(* GET /wa/status *)
Definition status (w : World) (req : Request) (st : State) : Response * State :=
  (Json 200 (JObj [("connected", JBool (connected w (apiKey (req_user req)) st))]), st).

(* POST /wa/send-text *)
Definition sendText (w : World) (req : Request) : State -> Response * State :=
  handler (fun st =>
    match sessions st !! apiKey (req_user req) with
    | None => ret not_connected st
    | Some sock =>
        let to := assoc "to" (body req) in
        let text := assoc "text" (body req) in
        if negb (truthy to) || negb (truthy text)
        then ret (error 400 "to & text required") st
        else
          (let! result := call w sock "sendMessage" [to; JObj [("text", text)]] in
           run! log (user_id (req_user req)) "message_out_text" in
           ret (success [("result", result)])) st
    end).

(* message = { image | video | audio | document ... } by extension *)
Definition media_message (ext buffer filename caption : JsVal) : JsVal :=
  if existsb (strict_eq_str ext) [".jpg"; ".jpeg"; ".png"; ".webp"]
  then JObj [("image", buffer); ("caption", caption)]
  else if existsb (strict_eq_str ext) [".mp4"; ".mkv"; ".mov"]
  then JObj [("video", buffer); ("caption", caption); ("mimetype", JStr "video/mp4")]
  else if existsb (strict_eq_str ext) [".mp3"; ".wav"; ".ogg"]
  then JObj [("audio", buffer)]
  else JObj [("document", buffer); ("fileName", filename);
             ("mimetype", JStr "application/octet-stream"); ("caption", caption)].

(* axios.get(url, { responseType: "arraybuffer" }) *)
Definition fetch (w : World) (url : JsVal) : M JsVal :=
  fun st =>
    let o := http_get w (clock st) url in
    let st1 := emit (HttpGet url o) st in
    match o with
    | Resolved v => (Ok v, st1)
    | Rejected err => (Throw err, st1)
    end.

(* POST /wa/send-media *)
Definition sendMedia (w : World) (req : Request) : State -> Response * State :=
  handler (fun st =>
    match sessions st !! apiKey (req_user req) with
    | None => ret not_connected st
    | Some sock =>
        let to := assoc "to" (body req) in
        let url := assoc "url" (body req) in
        let b64 := assoc "base64" (body req) in
        let filename :=
          match assoc "filename" (body req) with JUndefined => JStr "file" | f => f end in
        let caption := assoc "caption" (body req) in
        if negb (truthy to) then ret (error 400 "to required") st
        else
          let send (buffer : JsVal) : M Response :=
            match extname_lower w filename with
            | Resolved ext =>
                let message := media_message ext buffer filename caption in
                let! result := call w sock "sendMessage" [to; message] in
                run! log (user_id (req_user req)) "message_out_media" in
                ret (success [("result", result)])
            | Rejected err => throw err
            end in
          if truthy url then (let! data := fetch w url in send data) st
          else if truthy b64 then
            match buffer_from_base64 w b64 with
            | Resolved buffer => send buffer st
            | Rejected err => throw err st
            end
          else ret (error 400 "url or base64 required") st
    end).

(* POST /wa/send-buttons *)
Definition sendButtons (w : World) (req : Request) : State -> Response * State :=
  handler (fun st =>
    match sessions st !! apiKey (req_user req) with
    | None => ret not_connected st
    | Some sock =>
        let to := assoc "to" (body req) in
        let text := assoc "text" (body req) in
        let footer :=
          match assoc "footer" (body req) with JUndefined => JStr EmptyString | f => f end in
        let buttons := assoc "buttons" (body req) in
        if negb (truthy to) || negb (truthy text) || negb (truthy buttons)
        then ret (error 400 "to, text, buttons required") st
        else
          (let msg := JObj [("text", text); ("footer", footer); ("buttons", buttons)] in
           let! result := call w sock "sendMessage" [to; msg] in
           run! log (user_id (req_user req)) "message_out_buttons" in
           ret (success [("result", result)])) st
    end).

(* POST /wa/send-template *)
Definition sendTemplate (w : World) (req : Request) : State -> Response * State :=
  handler (fun st =>
    match sessions st !! apiKey (req_user req) with
    | None => ret not_connected st
    | Some sock =>
        let to := assoc "to" (body req) in
        let text := assoc "text" (body req) in
        let footer :=
          match assoc "footer" (body req) with JUndefined => JStr EmptyString | f => f end in
        let hydratedButtons := assoc "hydratedButtons" (body req) in
        if negb (truthy to) || negb (truthy text)
        then ret (error 400 "to & text required") st
        else
          (let message :=
             JObj [("text", text); ("footer", footer); ("templateButtons", hydratedButtons)] in
           let! result := call w sock "sendMessage" [to; message] in
           run! log (user_id (req_user req)) "message_out_template" in
           ret (success [("result", result)])) st
    end).

(* results.push({ to, r }) *)
Definition result_entry (to r : JsVal) : JsVal := JObj [("to", to); ("r", r)].

(* The loop of broadcast: one awaited send per element of numbers, each
   followed by results.push({ to, r }) and a log entry. *)
Fixpoint broadcast_loop (w : World) (userId : nat) (sock : Sock) (message : JsVal)
    (numbers : list JsVal) (results : list JsVal) : M (list JsVal) :=
  match numbers with
  | [] => ret results
  | to :: rest =>
      let! r := call w sock "sendMessage" [to; JObj [("text", message)]] in
      run! log userId "broadcast_out" in
      broadcast_loop w userId sock message rest
        (results ++ [result_entry to r])%list
  end.

(* POST /wa/broadcast *)
Definition broadcast (w : World) (req : Request) : State -> Response * State :=
  handler (fun st =>
    match sessions st !! apiKey (req_user req) with
    | None => ret not_connected st
    | Some sock =>
        let numbers := assoc "numbers" (body req) in
        let message := assoc "message" (body req) in
        match numbers with
        | JArr tos =>
            if negb (truthy message)
            then ret (error 400 "numbers array & message required") st
            else
              (let! results :=
                 broadcast_loop w (user_id (req_user req)) sock message tos [] in
               ret (success [("results", JArr results)])) st
        | _ => ret (error 400 "numbers array & message required") st
        end
    end).

(* GET /wa/chats *)
Definition getChats (w : World) (req : Request) (st : State) : Response * State :=
  match sessions st !! apiKey (req_user req) with
  | None => (not_connected, st)
  | Some sock =>
      (Json 200 (JObj [("chats", js_or (sock_prop w sock "chats") (JArr []))]), st)
  end.

(* GET /wa/messages?jid=&count= *)
Definition getMessages (w : World) (req : Request) : State -> Response * State :=
  handler (fun st =>
    match sessions st !! apiKey (req_user req) with
    | None => ret not_connected st
    | Some sock =>
        let jid := assoc "jid" (query req) in
        let count := parseInt w (js_or (assoc "count" (query req)) (JStr "20")) in
        if negb (truthy jid) then ret (error 400 "jid required") st
        else if has_fetchMessages w sock then
          (let! msgs := call w sock "fetchMessages" [jid; count] in
           ret (Json 200 (JObj [("messages", msgs)]))) st
        else ret (Json 200 (JObj [("messages", JArr [])])) st
    end).

(* POST /wa/mark-read *)
Definition markRead (w : World) (req : Request) : State -> Response * State :=
  handler (fun st =>
    match sessions st !! apiKey (req_user req) with
    | None => ret not_connected st
    | Some sock =>
        let jid := assoc "jid" (body req) in
        let messageId := assoc "messageId" (body req) in
        if negb (truthy jid) || negb (truthy messageId)
        then ret (error 400 "jid & messageId required") st
        else
          (let! _ := call w sock "sendReadReceipt" [jid; jid; JArr [messageId]] in
           run! log (user_id (req_user req)) "mark_read" in
           ret (success [])) st
    end).

(* POST /wa/presence *)
Definition presence (w : World) (req : Request) : State -> Response * State :=
  handler (fun st =>
    match sessions st !! apiKey (req_user req) with
    | None => ret not_connected st
    | Some sock =>
        let to := assoc "to" (body req) in
        let p := assoc "presence" (body req) in
        if negb (truthy to) || negb (truthy p)
        then ret (error 400 "to & presence required") st
        else
          (let! _ := call w sock "sendPresenceUpdate" [p; to] in
           run! log (user_id (req_user req)) "presence_update_sent" in
           ret (success [])) st
    end).

(* POST /wa/block and /wa/unblock share their shape; action is "block" or
   "unblock", also the name of the log entry. *)
Definition block_status (action : string) (w : World) (req : Request)
    : State -> Response * State :=
  handler (fun st =>
    let jid := assoc "jid" (body req) in
    match sessions st !! apiKey (req_user req) with
    | None => ret not_connected st
    | Some sock =>
        if negb (truthy jid) then ret (error 400 "jid required") st
        else
          (let! _ := call w sock "updateBlockStatus" [jid; JStr action] in
           run! log (user_id (req_user req)) action in
           ret (success [])) st
    end).

Definition block := block_status "block".
Definition unblock := block_status "unblock".

(* Group operations on a list of participants: createGroup and groupAdd.
   [first] is the name of the first body field, [method] the socket method. *)
Definition group_many (first method event : string) (w : World) (req : Request)
    : State -> Response * State :=
  handler (fun st =>
    let target := assoc first (body req) in
    let participants := assoc "participants" (body req) in
    match sessions st !! apiKey (req_user req) with
    | None => ret not_connected st
    | Some sock =>
        if negb (truthy target) || negb (truthy participants)
        then ret (error 400 (first +:+ " & participants required")) st
        else
          (let! result := call w sock method [target; participants] in
           run! log (user_id (req_user req)) event in
           ret (success [("result", result)])) st
    end).

Definition createGroup := group_many "subject" "groupCreate" "group_create".
Definition groupAdd := group_many "groupId" "groupAdd" "group_add".

(* Group operations on one participant: remove, promote, demote. *)
Definition group_one (method event : string) (w : World) (req : Request)
    : State -> Response * State :=
  handler (fun st =>
    let groupId := assoc "groupId" (body req) in
    let participant := assoc "participant" (body req) in
    match sessions st !! apiKey (req_user req) with
    | None => ret not_connected st
    | Some sock =>
        if negb (truthy groupId) || negb (truthy participant)
        then ret (error 400 "groupId & participant required") st
        else
          (let! result := call w sock method [groupId; JArr [participant]] in
           run! log (user_id (req_user req)) event in
           ret (success [("result", result)])) st
    end).

Definition groupRemove := group_one "groupRemove" "group_remove".
Definition groupPromote := group_one "groupMakeAdmin" "group_promote".
Definition groupDemote := group_one "groupDemoteAdmin" "group_demote".

(* GET /wa/contacts *)
Definition getContacts (w : World) (req : Request) (st : State) : Response * State :=
  match sessions st !! apiKey (req_user req) with
  | None => (not_connected, st)
  | Some sock =>
      (Json 200 (JObj [("contacts", js_or (sock_prop w sock "contacts") (JObj []))]), st)
  end.

(* Object.keys(message.message || {}).find(k => k.includes("Message"))
   || "media" *)
Definition media_type (w : World) (message : JsVal) : string :=
  let keys := object_keys w (js_or (get_field message "message") (JObj [])) in
  match find (includes "Message") keys with
  | Some k => if truthy (JStr k) then k else "media"
  | None => "media"
  end.

(* if (!fs.existsSync("downloads")) fs.mkdirSync(...);
   fs.writeFileSync(filePath, mediaBuffer) *)
Definition write_file (w : World) (filePath : string) (data : JsVal) : M unit :=
  fun st =>
    match write_file_error w (clock st) filePath with
    | Some err => (Throw err, st)
    | None => (Ok tt, emit (WriteFile filePath data) st)
    end.

(* POST /wa/download-media *)
Definition downloadMedia (w : World) (req : Request) : State -> Response * State :=
  handler (fun st =>
    match sessions st !! apiKey (req_user req) with
    | None => ret not_connected st
    | Some sock =>
        let message := assoc "message" (body req) in
        if negb (truthy message) then ret (error 400 "message required") st
        else
          (let! mediaBuffer := call w sock "downloadMediaMessage" [message; JStr "buffer"] in
           let! now := gets (fun s => now_ms w (clock s)) in
           let fileName :=
             now +:+ "_" +:+ replace_first "Message" EmptyString (media_type w message) in
           let filePath := path_join w "downloads" fileName in
           run! write_file w filePath mediaBuffer in
           run! log (user_id (req_user req)) "media_download" in
           ret (success [("filePath", JStr filePath)])) st
    end).

(* POST /wa/profile-update *)
Definition updateProfileName (w : World) (req : Request) : State -> Response * State :=
  handler (fun st =>
    match sessions st !! apiKey (req_user req) with
    | None => ret not_connected st
    | Some sock =>
        let name := assoc "name" (body req) in
        if negb (truthy name) then ret (error 400 "name required") st
        else
          (* sock.updateProfileName(name).catch(() => null) *)
          (let! result :=
             try_catch (call w sock "updateProfileName" [name]) (fun _ => ret JNull) in
           run! log (user_id (req_user req)) "profile_update" in
           ret (success [("result", result)])) st
    end).

(* POST /wa/profile-picture *)
Definition updateProfilePicture (w : World) (req : Request) : State -> Response * State :=
  handler (fun st =>
    match sessions st !! apiKey (req_user req) with
    | None => ret not_connected st
    | Some sock =>
        let b64 := assoc "base64" (body req) in
        if negb (truthy b64) then ret (error 400 "base64 required") st
        else
          match buffer_from_base64 w b64 with
          | Rejected err => throw err st
          | Resolved buffer =>
              (let! _ :=
                 try_catch
                   (call w sock "updateProfilePicture"
                      [JStr (apiKey (req_user req) +:+ "@s.whatsapp.net"); buffer])
                   (fun _ => ret JUndefined) in
               run! log (user_id (req_user req)) "profile_picture_update" in
               ret (success [])) st
          end
    end).

(* POST /wa/logout *)
Definition logout (w : World) (req : Request) (st : State) : Response * State :=
  let k := apiKey (req_user req) in
  let st1 :=
    match sessions st !! k with
    | Some sock =>
        (* try { await sock.logout(); } catch (e) {} *)
        let st' := snd (call w sock "logout" [] st) in
        set_sessions (delete k) st'
    | None => st
    end in
  (* try { fs.rmSync(sessDir, ...) } catch {} *)
  let st2 := rmSessionDir w k st1 in
  (* notify SSE clients *)
  let st3 := sendSSE w k "logged_out" (JObj []) st2 in
  let st4 := saveLog (user_id (req_user req)) "logout" st3 in
  (success [], st4).

(* --------------------------------------------------------------------- *)
(* The command dispatcher: the routes that act on the tenant's socket     *)
(* --------------------------------------------------------------------- *)

Inductive Command : Type :=
| SendText | SendMedia | SendButtons | SendTemplate | Broadcast
| GetChats | GetMessages | MarkRead | Presence | Block | Unblock
| CreateGroup | GroupAdd | GroupRemove | GroupPromote | GroupDemote
| GetContacts | DownloadMedia | UpdateProfileName | UpdateProfilePicture.

Definition dispatch (w : World) (c : Command) (req : Request)
    : State -> Response * State :=
  match c with
  | SendText => sendText w req
  | SendMedia => sendMedia w req
  | SendButtons => sendButtons w req
  | SendTemplate => sendTemplate w req
  | Broadcast => broadcast w req
  | GetChats => getChats w req
  | GetMessages => getMessages w req
  | MarkRead => markRead w req
  | Presence => presence w req
  | Block => block w req
  | Unblock => unblock w req
  | CreateGroup => createGroup w req
  | GroupAdd => groupAdd w req
  | GroupRemove => groupRemove w req
  | GroupPromote => groupPromote w req
  | GroupDemote => groupDemote w req
  | GetContacts => getContacts w req
  | DownloadMedia => downloadMedia w req
  | UpdateProfileName => updateProfileName w req
  | UpdateProfilePicture => updateProfilePicture w req
  end.

(* --------------------------------------------------------------------- *)
(* The controller as a transition system                                  *)
(* --------------------------------------------------------------------- *)

(* What can happen to the controller: a request on one of its routes, an
   event of a socket it made (the handlers close over user and apiKey), an
   SSE stream closing, a heartbeat, a reconnect timer running out. *)
Inductive Label : Type :=
| LConnect (req : Request)
| LStatus (req : Request)
| LCommand (c : Command) (req : Request)
| LLogout (req : Request)
| LSubscribe (k : string) (res : Sink)
| LSseClose (k : string) (res : Sink)
| LPing (res : Sink)
| LConnectionUpdate (user : User) (update : Update)
| LCredsUpdate (k : string) (creds : Blob)
| LMessagesUpsert (user : User) (sock : Sock) (m : JsVal)
(* presence.update, chats.set, groups.update, group-participants.update *)
| LLogged (user : User) (event : string)
| LTimer (k : string).

(* The first pending timer of tenant k leaves the timer table when it
   fires. *)
Fixpoint remove_timer (k : string) (ts : list (string * Z)) : list (string * Z) :=
  match ts with
  | [] => []
  | (k', ms) :: rest =>
      if String.eqb k' k then rest else (k', ms) :: remove_timer k rest
  end.

Definition pending (k : string) (st : State) : nat :=
  length (List.filter (fun t => String.eqb (fst t) k) (timers st)).

Definition exec (w : World) (l : Label) (st : State) : State :=
  match l with
  | LConnect req => snd (connect w req st)
  | LStatus req => snd (status w req st)
  | LCommand c req => snd (dispatch w c req st)
  | LLogout req => snd (logout w req st)
  | LSubscribe k res => snd (qrSSE w k res st)
  | LSseClose k res => on_sse_close k res st
  | LPing res => ping w res st
  | LConnectionUpdate user update => on_connection_update w user update st
  | LCredsUpdate k creds => on_creds_update k creds st
  | LMessagesUpsert user sock m => on_messages_upsert w user sock m st
  | LLogged user event => saveLog (user_id user) event st
  | LTimer k => reconnect_callback w k (set_timers (remove_timer k) st)
  end.

(* A timer can only run out while it is pending. *)
Definition enabled (l : Label) (st : State) : Prop :=
  match l with
  | LTimer k => 0 < pending k st
  | _ => True
  end.

Inductive reachable (w : World) : State -> Prop :=
| reach_init : reachable w init
| reach_step st l : reachable w st -> enabled l st -> reachable w (exec w l st).

(* Classification of a close event: the one terminal reason. *)
Definition is_close (update : Update) : bool :=
  strict_eq_str (connection update) "close".

Definition terminal (w : World) (update : Update) : bool :=
  strict_eq_num (statusCode update) (loggedOut w).

(* The two ways a tenant is logged out: the logout route, and a close
   event whose reason is the terminal one. *)
Definition logs_out (w : World) (l : Label) (k : string) : Prop :=
  match l with
  | LLogout req => apiKey (req_user req) = k
  | LConnectionUpdate user update =>
      apiKey user = k /\ is_close update = true /\ terminal w update = true
  | _ => False
  end.

(* The tables and the disk, without the log of effects. *)
Definition tables (st : State) :=
  (sessions st, reconnecting st, sseClients st, session_dirs st, timers st,
   next_sock st).

Definition is_make (e : Effect) : bool :=
  match e with MakeSocket _ _ => true | _ => false end.

Definition made_for (k : string) (e : Effect) : bool :=
  match e with MakeSocket k' _ => String.eqb k' k | _ => false end.

(* The sockets made for tenant k so far. *)
Definition sockets_made (k : string) (st : State) : list Effect :=
  List.filter (made_for k) (trace st).

Definition is_sock_call (e : Effect) : bool :=
  match e with SockCall _ _ _ _ => true | _ => false end.

(* The calls made on sockets so far. *)
Definition sock_calls (st : State) : list Effect :=
  List.filter is_sock_call (trace st).

(* [st'] differs from [st] by effects that make no socket. *)
Definition quiet (st st' : State) : Prop :=
  tables st' = tables st /\
  exists new, trace st' = (trace st ++ new)%list /\ existsb is_make new = false.

(* --------------------------------------------------------------------- *)
(* Vocabulary of the properties                                           *)
(* --------------------------------------------------------------------- *)

(* The send of broadcast to one recipient, with how it settled. *)
Definition send_to (sock : Sock) (message to : JsVal) (o : Outcome) : Effect :=
  SockCall sock "sendMessage" [to; JObj [("text", message)]] o.

(* A computation that is quiet from every state. *)
Definition QuietM {A} (c : M A) : Prop := forall st, quiet st (snd (c st)).

(* The part of connection.update that runs before the close branch. *)
Definition before_close (w : World) (user : User) (update : Update) (st : State) : State :=
  on_open w user update (on_qr w user update (saveLog (user_id user) "connection_update" st)).

(* The state in which the close branch classifies the reason. *)
Definition at_close (w : World) (user : User) (update : Update) (st : State) : State :=
  saveLog (user_id user) "connection_close" (before_close w user update st).

(* The removal shared by the logged-out branch and the logout route: log
   the socket out if the registry has one, forget it, remove the
   directory. *)
Definition without_session (w : World) (k : string) (st : State) : State :=
  match sessions st !! k with
  | Some sock => set_sessions (delete k) (snd (call w sock "logout" [] st))
  | None => st
  end.

(* [st'] has the sessions and directories of [st] and made no socket. *)
Definition calm (st st' : State) : Prop :=
  sessions st' = sessions st /\ session_dirs st' = session_dirs st /\
  forall k, sockets_made k st' = sockets_made k st.

(* Tenant k keeps what it has: its session stays or is created from
   nothing by one makeWASocket; its directory stays or is created empty. *)
Definition keeps (k : string) (st st' : State) : Prop :=
  (sessions st' !! k = sessions st !! k /\ sockets_made k st' = sockets_made k st \/
   sessions st !! k = None /\
   exists s, sessions st' !! k = Some s /\
             sockets_made k st' = (sockets_made k st ++ [MakeSocket k s])%list) /\
  (session_dirs st' !! k = session_dirs st !! k \/
   session_dirs st !! k = None /\ session_dirs st' !! k = Some None).

(* creds.update reached an existing directory of tenant k. *)
Definition saved (k : string) (l : Label) (st st' : State) : Prop :=
  exists creds, l = LCredsUpdate k creds /\ is_Some (session_dirs st !! k) /\
                st' = set_session_dirs (insert k (Some creds)) st.

(* Tenant k is logged out: no session, no new socket; no directory, or
   the directory as it was when fs.rmSync threw. *)
Definition dropped (k : string) (st st' : State) : Prop :=
  sessions st' !! k = None /\
  (session_dirs st' !! k = None \/ session_dirs st' !! k = session_dirs st !! k) /\
  sockets_made k st' = sockets_made k st.

(* Timers and guards are the same in [st] and [st']. *)
Definition idle (st st' : State) : Prop :=
  timers st' = timers st /\ reconnecting st' = reconnecting st.

(* At most one timer per tenant is pending, and only under a raised
   guard. *)
Definition timers_guarded (st : State) : Prop :=
  forall k, pending k st <= 1 /\ (0 < pending k st -> reconnecting st !! k = Some true).

(* Sink [res] was written its event line among the effects [new], and its
   data line too when the event line went through. *)
Definition written (ev payload : string) (new : list Effect) (res : Sink) : Prop :=
  exists ok, In (SseWrite res (event_line ev) ok) new /\
    (ok = true -> exists ok2, In (SseWrite res (data_line payload) ok2) new).

(* --------------------------------------------------------------------- *)
(* A small world to run the controller in                                 *)
(* --------------------------------------------------------------------- *)

(* Every socket call succeeds except a send to "bad@s.whatsapp.net"; sink 1
   is broken; sockets never reach readyState 1. *)
Definition demo_world : World :=
  mkWorld 401
    (fun _ _ _ args =>
       match args with
       | JStr "bad@s.whatsapp.net" :: _ => Rejected (JStr "not-authorized")
       | _ => Resolved (JStr "sent")
       end)
    (fun _ _ => None)
    (fun _ res _ => negb (Nat.eqb res 1))
    (fun _ k => Some (mkUser 7 k))
    (fun _ _ => JNum 0)
    (fun _ _ => JUndefined)
    (fun _ => false)
    (fun _ _ => Resolved (JStr "bytes"))
    (fun v => match v with JStr _ => Resolved v | _ => Rejected type_error end)
    (fun _ => Resolved (JStr ".jpg"))
    (fun _ => [])
    (fun v => v)
    (fun _ => "{}")
    (fun _ => None)
    (fun _ => EmptyString)
    (fun _ => "2025-01-01T00:00:00.000Z")
    (fun _ => "0")
    (fun _ _ => false)
    (fun _ _ _ => JStr "write after end")
    (fun dir name => dir +:+ "/" +:+ name)
    (fun _ _ => None).

Definition alice : User := mkUser 7 "a1b2".

Definition alice_req (fields : list (string * JsVal)) : Request :=
  mkRequest alice fields [].

(* alice has connected, and two SSE clients listen for her events *)
Definition alice_linked : State :=
  exec demo_world (LSubscribe "a1b2" 2)
    (exec demo_world (LSubscribe "a1b2" 1)
       (exec demo_world (LConnect (alice_req [])) init)).

Definition transient_close : Update := mkUpdate (JStr "close") (JNum 428) JUndefined.

Definition dropped_close : Update := mkUpdate (JStr "close") JUndefined JUndefined.

Definition terminal_close : Update := mkUpdate (JStr "close") (JNum 401) JUndefined.

Definition hello : Request :=
  alice_req [("to", JStr "628@s.whatsapp.net"); ("text", JStr "hi")].

Definition fanout : Request :=
  alice_req [("numbers", JArr [JStr "1@s.whatsapp.net"; JStr "bad@s.whatsapp.net";
                               JStr "3@s.whatsapp.net"]);
             ("message", JStr "hi")].

(* --------------------------------------------------------------------- *)
(* Vocabulary of the further properties                                   *)
(* --------------------------------------------------------------------- *)

Definition is_log (e : Effect) : bool :=
  match e with LogCreate _ _ => true | _ => false end.

(* The audit entries written so far. *)
Definition logs (st : State) : list Effect :=
  List.filter is_log (trace st).

(* !msg.key || msg.key.remoteJid === "status@broadcast" is false: the
   message is acknowledged. *)
Definition needs_receipt (msg : JsVal) : bool :=
  truthy (get_field msg "key") &&
  negb (strict_eq_str (get_field (get_field msg "key") "remoteJid") "status@broadcast").

(* The arguments of the acknowledgment of one message. *)
Definition receipt_args (msg : JsVal) : list JsVal :=
  let key := get_field msg "key" in
  [get_field key "remoteJid";
   match get_field key "participant" with
   | JUndefined | JNull => get_field key "remoteJid"
   | p => p
   end;
   JArr [get_field key "id"]].

(* The sinks that were written the event line of [ev] among the effects
   [new], in the order of the writes. *)
Definition event_sinks (ev : string) (new : list Effect) : list Sink :=
  omap (fun e =>
          match e with
          | SseWrite res chunk _ =>
              if String.eqb chunk (event_line ev) then Some res else None
          | _ => None
          end) new.

(* Every registered subscriber set is a non-empty Set. *)
Definition subscribers_wf (st : State) : Prop :=
  forall k clients, sseClients st !! k = Some clients -> clients <> [] /\ NoDup clients.


(* A notify with one message to acknowledge, one status broadcast and one
   message without key. *)
Definition incoming : JsVal :=
  JObj [("type", JStr "notify");
        ("messages",
         JArr [JObj [("key", JObj [("remoteJid", JStr "1@s.whatsapp.net");
                                   ("id", JStr "A")])];
               JObj [("key", JObj [("remoteJid", JStr "status@broadcast");
                                   ("id", JStr "B")])];
               JObj []])].


(* An update that only reports an open connection, and one that only
   carries a linking code. *)
Definition open_update : Update := mkUpdate (JStr "open") JUndefined JUndefined.
Definition qr_update : Update := mkUpdate JUndefined JUndefined (JStr "2@abc").

(* alice's session was closed for a transient reason: her timer is
   pending. *)
Definition alice_waiting : State :=
  exec demo_world (LConnectionUpdate alice transient_close) alice_linked.



(* The socket method each route calls. *)
Definition route_method (c : Command) : option string :=
  match c with
  | SendText | SendMedia | SendButtons | SendTemplate | Broadcast => Some "sendMessage"
  | GetChats | GetContacts => None
  | GetMessages => Some "fetchMessages"
  | MarkRead => Some "sendReadReceipt"
  | Presence => Some "sendPresenceUpdate"
  | Block | Unblock => Some "updateBlockStatus"
  | CreateGroup => Some "groupCreate"
  | GroupAdd => Some "groupAdd"
  | GroupRemove => Some "groupRemove"
  | GroupPromote => Some "groupMakeAdmin"
  | GroupDemote => Some "groupDemoteAdmin"
  | DownloadMedia => Some "downloadMediaMessage"
  | UpdateProfileName => Some "updateProfileName"
  | UpdateProfilePicture => Some "updateProfilePicture"
  end.


(* --------------------------------------------------------------------- *)
(* Vocabulary of the log-out paths and of the sockets of one tenant       *)
(* --------------------------------------------------------------------- *)

(* The sockets makeWASocket returned for tenant k so far. *)
Definition made_sockets (k : string) (st : State) : list Sock :=
  omap (fun e =>
          match e with
          | MakeSocket k' s => if String.eqb k' k then Some s else None
          | _ => None
          end) (trace st).

(* A logout call on socket s that resolved. *)
Definition logout_resolved (s : Sock) (e : Effect) : bool :=
  match e with
  | SockCall s' method _ (Resolved _) => Nat.eqb s' s && String.eqb method "logout"
  | _ => false
  end.

(* The sockets of tenant k that were made and not logged out: logout is the
   only way in which the controller ends a socket. *)
Definition live_sockets (k : string) (st : State) : list Sock :=
  List.filter (fun s => negb (existsb (logout_resolved s) (trace st)))
              (made_sockets k st).

(* Two calls of createSocketForUser for one user, the second entered while
   the first is suspended in its awaits. *)
Definition racing_connects (w : World) (user : User) (st : State) : State :=
  let st1 := snd (createSocketForUser_enter user st) in
  let st2 := snd (createSocketForUser_enter user st1) in
  let st3 := snd (createSocketForUser_resume w user st2) in
  snd (createSocketForUser_resume w user st3).

(* What the logged-out branch and the logout route share, from the logout
   call to the publish. *)
Definition removal (w : World) (k : string) (st : State) : State :=
  sendSSE w k "logged_out" (JObj []) (rmSessionDir w k (without_session w k st)).


(* A world in which every logout call is rejected and fs.rmSync throws. *)
Definition stubborn_world : World :=
  mkWorld 401
    (fun _ _ method _ =>
       if String.eqb method "logout" then Rejected (JStr "Connection Closed")
       else Resolved (JStr "sent"))
    (fun _ _ => None)
    (fun _ _ _ => true)
    (fun _ k => Some (mkUser 7 k))
    (fun _ _ => JNum 0)
    (fun _ _ => JUndefined)
    (fun _ => false)
    (fun _ _ => Resolved (JStr "bytes"))
    (fun v => match v with JStr _ => Resolved v | _ => Rejected type_error end)
    (fun _ => Resolved (JStr ".jpg"))
    (fun _ => [])
    (fun v => v)
    (fun _ => "{}")
    (fun _ => None)
    (fun _ => EmptyString)
    (fun _ => "2025-01-01T00:00:00.000Z")
    (fun _ => "0")
    (fun _ _ => true)
    (fun _ _ _ => JStr "write after end")
    (fun dir name => dir +:+ "/" +:+ name)
    (fun _ _ => Some (JStr "EACCES")).


(* alice connects, logs out while her socket rejects the logout, and
   connects again *)
Definition alice_relinked : State :=
  exec stubborn_world (LConnect (alice_req []))
    (exec stubborn_world (LLogout (alice_req []))
       (exec stubborn_world (LConnect (alice_req [])) init)).

(* What one resolved send of broadcast leaves in the trace: the call, then
   its audit entry. *)
Definition sent_and_logged (uid : nat) (sock : Sock) (message to r : JsVal)
    : list Effect :=
  [send_to sock message to (Resolved r); LogCreate uid "broadcast_out"].

(* A notify whose second message is null: the first is acknowledged, the
   third is never looked at. *)
Definition incoming_null : JsVal :=
  JObj [("type", JStr "notify");
        ("messages",
         JArr [JObj [("key", JObj [("remoteJid", JStr "1@s.whatsapp.net");
                                   ("id", JStr "A")])];
               JNull;
               JObj [("key", JObj [("remoteJid", JStr "2@s.whatsapp.net");
                                   ("id", JStr "C")])]])].

(* ===================================================================== *)
(* Properties                                                             *)
(* ===================================================================== *)

(* createSocketForUser, read in one piece. *)
Lemma createSocketForUser_eq w user st :
  createSocketForUser w user st =
  match sessions st !! apiKey user with
  | Some sock => (Ok sock, st)
  | None =>
      let st1 := ensureSessionDir (apiKey user) st in
      match open_error w (clock st1) (apiKey user) with
      | Some err => (Throw err, st1)
      | None =>
          let sock := next_sock st1 in
          let st2 := emit (MakeSocket (apiKey user) sock) (set_next_sock (S sock) st1) in
          (Ok sock, set_sessions (insert (apiKey user) sock) st2)
      end
  end.
Proof.
  unfold createSocketForUser, createSocketForUser_enter, createSocketForUser_resume.
  by destruct (sessions st !! apiKey user).
Qed.

Lemma quiet_refl st : quiet st st.
Proof.
  split; [reflexivity|]. exists []. split; [by rewrite app_nil_r | reflexivity].
Qed.

Lemma quiet_trans st1 st2 st3 : quiet st1 st2 -> quiet st2 st3 -> quiet st1 st3.
Proof.
  intros [T1 (n1 & E1 & F1)] [T2 (n2 & E2 & F2)].
  split; [congruence|].
  exists (n1 ++ n2)%list. split.
  - rewrite E2, E1. by rewrite <- app_assoc.
  - rewrite existsb_app, F1, F2. reflexivity.
Qed.

Lemma quiet_emit e st : is_make e = false -> quiet st (emit e st).
Proof.
  intros H. split; [reflexivity|]. exists [e]. split; [reflexivity|].
  simpl. by rewrite H.
Qed.

Lemma quiet_saveLog uid ev st : quiet st (saveLog uid ev st).
Proof. by apply quiet_emit. Qed.

Lemma QuietM_ret {A} (a : A) : QuietM (ret a).
Proof. intros st. apply quiet_refl. Qed.

Lemma QuietM_throw {A} err : QuietM (@throw A err).
Proof. intros st. apply quiet_refl. Qed.

Lemma QuietM_gets {A} (f : State -> A) : QuietM (gets f).
Proof. intros st. apply quiet_refl. Qed.

Lemma QuietM_bind {A B} (c : M A) (k : A -> M B) :
  QuietM c -> (forall a, QuietM (k a)) -> QuietM (bind c k).
Proof.
  intros Hc Hk st. unfold bind. specialize (Hc st).
  destruct (c st) as [[a|err] st1]; simpl in *; [|done].
  eapply quiet_trans; [exact Hc | apply Hk].
Qed.

Lemma QuietM_try_catch {A} (c : M A) (h : JsVal -> M A) :
  QuietM c -> (forall err, QuietM (h err)) -> QuietM (try_catch c h).
Proof.
  intros Hc Hh st. unfold try_catch. specialize (Hc st).
  destruct (c st) as [[a|err] st1]; simpl in *; [done|].
  eapply quiet_trans; [exact Hc | apply Hh].
Qed.

Lemma QuietM_call w sock method args : QuietM (call w sock method args).
Proof.
  intros st. unfold call.
  destruct (sock_call w (clock st) sock method args); simpl; by apply quiet_emit.
Qed.

Lemma QuietM_fetch w url : QuietM (fetch w url).
Proof.
  intros st. unfold fetch.
  destruct (http_get w (clock st) url); simpl; by apply quiet_emit.
Qed.

Lemma QuietM_log uid ev : QuietM (log uid ev).
Proof. intros st. apply quiet_saveLog. Qed.

Lemma QuietM_write w path data : QuietM (write_file w path data).
Proof.
  intros st. unfold write_file.
  destruct (write_file_error w (clock st) path); simpl;
    [apply quiet_refl | by apply quiet_emit].
Qed.

Lemma quiet_handler (c : M Response) st : QuietM c -> quiet st (snd (handler c st)).
Proof.
  intros Hc. unfold handler. specialize (Hc st).
  by destruct (c st) as [[r|err] st1].
Qed.

Lemma QuietM_broadcast_loop w uid sock message tos :
  forall results, QuietM (broadcast_loop w uid sock message tos results).
Proof.
  induction tos as [|to rest IH]; intros results; simpl.
  - apply QuietM_ret.
  - apply QuietM_bind; [apply QuietM_call|]. intros r.
    apply QuietM_bind; [apply QuietM_log|]. intros _. apply IH.
Qed.

Create HintDb quiet.

#[local] Hint Resolve QuietM_ret QuietM_throw QuietM_gets QuietM_call QuietM_fetch
  QuietM_log QuietM_write QuietM_broadcast_loop quiet_refl : quiet.

(* Splits a handler body along its tests, then its binds. *)
Ltac quiet_body :=
  repeat match goal with
  | |- quiet ?st (snd (ret _ ?st)) => apply quiet_refl
  | |- quiet ?st (snd (throw _ ?st)) => apply quiet_refl
  | |- quiet ?st (snd (bind ?c ?k ?st)) => apply (QuietM_bind c k)
  | |- quiet ?st (snd (match ?x with _ => _ end ?st)) => destruct x
  | |- quiet ?st (snd (match ?x with _ => _ end)) => destruct x
  | |- QuietM (bind _ _) => apply QuietM_bind
  | |- QuietM (try_catch _ _) => apply QuietM_try_catch
  | |- QuietM (match ?x with _ => _ end) => destruct x
  | |- forall _, _ => intro
  | |- _ => solve [auto with quiet]
  end.

Lemma dispatch_quiet w c req st : quiet st (snd (dispatch w c req st)).
Proof.
  destruct c; simpl;
    unfold sendText, sendMedia, sendButtons, sendTemplate, broadcast, getChats,
      getMessages, markRead, presence, block, unblock, block_status, createGroup,
      groupAdd, group_many, groupRemove, groupPromote, groupDemote, group_one,
      getContacts, downloadMedia, updateProfileName, updateProfilePicture;
    try (apply quiet_handler; intros st'; cbv zeta);
    quiet_body.
Qed.

Lemma quiet_sessions st st' : quiet st st' -> sessions st' = sessions st.
Proof. intros [T _]. unfold tables in T. congruence. Qed.

Lemma quiet_reconnecting st st' : quiet st st' -> reconnecting st' = reconnecting st.
Proof. intros [T _]. unfold tables in T. congruence. Qed.

Lemma quiet_sseClients st st' : quiet st st' -> sseClients st' = sseClients st.
Proof. intros [T _]. unfold tables in T. congruence. Qed.

Lemma quiet_session_dirs st st' : quiet st st' -> session_dirs st' = session_dirs st.
Proof. intros [T _]. unfold tables in T. congruence. Qed.

Lemma quiet_timers st st' : quiet st st' -> timers st' = timers st.
Proof. intros [T _]. unfold tables in T. congruence. Qed.

Lemma filter_none {A} (f : A -> bool) (g : A -> bool) (l : list A) :
  (forall a, g a = true -> f a = true) -> existsb f l = false -> List.filter g l = [].
Proof.
  intros Hfg. induction l as [|a l IH]; simpl; [done|].
  intros H. apply orb_false_iff in H as [Ha Hl].
  destruct (g a) eqn:Hg; [apply Hfg in Hg; congruence | by apply IH].
Qed.

Lemma quiet_sockets_made k st st' :
  quiet st st' -> sockets_made k st' = sockets_made k st.
Proof.
  intros [_ (new & E & F)]. unfold sockets_made.
  rewrite E, List.filter_app, (filter_none is_make (made_for k) new);
    [by rewrite app_nil_r | | done].
  by intros [].
Qed.

Lemma quiet_sse_write_all w ev payload clients :
  forall st, quiet st (sse_write_all w ev payload clients st).
Proof.
  induction clients as [|res rest IH]; intros st; simpl; [apply quiet_refl|].
  eapply quiet_trans; [|apply IH].
  unfold sse_write. cbv zeta.
  destruct (write_ok w (clock st) res _).
  - eapply quiet_trans; by apply quiet_emit.
  - by apply quiet_emit.
Qed.

Lemma quiet_sendSSE w k ev data st : quiet st (sendSSE w k ev data st).
Proof.
  unfold sendSSE. destruct (sseClients st !! k); [|apply quiet_refl].
  apply quiet_sse_write_all.
Qed.

Lemma quiet_on_qr w user update st : quiet st (on_qr w user update st).
Proof.
  unfold on_qr. destruct (truthy (qr update)); [|apply quiet_refl].
  eapply quiet_trans; [apply quiet_saveLog | apply quiet_sendSSE].
Qed.

Lemma quiet_on_open w user update st : quiet st (on_open w user update st).
Proof.
  unfold on_open. destruct (strict_eq_str _ _); [|apply quiet_refl].
  eapply quiet_trans; [apply quiet_sendSSE|].
  eapply quiet_trans; [apply quiet_saveLog | apply quiet_sendSSE].
Qed.

Lemma quiet_read_receipt w sock msg : QuietM (read_receipt w sock msg).
Proof.
  intros st. unfold read_receipt. destruct (nullish msg); [apply quiet_refl|].
  destruct (_ || _); [apply quiet_refl | apply QuietM_call].
Qed.

Lemma quiet_receipts w sock msgs : QuietM (read_receipts w sock msgs).
Proof.
  induction msgs as [|msg msgs IH]; simpl; [apply QuietM_ret|].
  apply QuietM_bind; [apply quiet_read_receipt | intros _; apply IH].
Qed.

Lemma quiet_on_messages_upsert w user sock m st :
  quiet st (on_messages_upsert w user sock m st).
Proof.
  unfold on_messages_upsert. cbv zeta.
  apply (quiet_trans _ (saveLog (user_id user) "message_in" st));
    [apply quiet_saveLog|].
  generalize (saveLog (user_id user) "message_in" st). intros st1.
  destruct (nullish m); [apply quiet_refl|].
  destruct (strict_eq_str _ _); [|apply quiet_sendSSE].
  destruct (js_or _ _) as [| | | | |msgs|]; try apply quiet_refl; [apply quiet_sendSSE|].
  pose proof (quiet_receipts w sock msgs st1) as Hq.
  destruct (read_receipts w sock msgs st1) as [[[]|err] st2]; simpl in Hq; [|exact Hq].
  eapply quiet_trans; [exact Hq | apply quiet_sendSSE].
Qed.

Lemma quiet_before_close w user update st : quiet st (before_close w user update st).
Proof.
  unfold before_close.
  eapply quiet_trans; [apply quiet_saveLog|].
  eapply quiet_trans; [apply quiet_on_qr | apply quiet_on_open].
Qed.

Lemma quiet_schedule_guarded k st :
  reconnecting st !! k = Some true -> schedule_reconnect k st = st.
Proof. intros H. unfold schedule_reconnect. by rewrite H. Qed.

(* --------------------------------------------------------------------- *)
(* What one step does to one tenant                                       *)
(* --------------------------------------------------------------------- *)

Lemma quiet_calm st st' : quiet st st' -> calm st st'.
Proof.
  intros H. split; [by apply quiet_sessions|].
  split; [by apply quiet_session_dirs|]. intros k. by apply quiet_sockets_made.
Qed.

Lemma calm_refl st : calm st st.
Proof. by repeat split. Qed.

Lemma calm_trans st1 st2 st3 : calm st1 st2 -> calm st2 st3 -> calm st1 st3.
Proof.
  intros (S1 & D1 & M1) (S2 & D2 & M2).
  split; [congruence|]. split; [congruence|]. intros k. by rewrite M2, M1.
Qed.

Lemma calm_keeps k st st' : calm st st' -> keeps k st st'.
Proof.
  intros (S & D & Mk). split; left; [split|]; [by rewrite S | apply Mk | by rewrite D].
Qed.

Lemma keeps_calm_l k st st1 st2 : calm st st1 -> keeps k st1 st2 -> keeps k st st2.
Proof.
  intros (S & D & Mk) H. unfold keeps in *. by rewrite <- S, <- D, <- Mk.
Qed.

Lemma keeps_calm_r k st st1 st2 : keeps k st st1 -> calm st1 st2 -> keeps k st st2.
Proof.
  intros H (S & D & Mk). unfold keeps in *. by rewrite S, D, Mk.
Qed.

Lemma dropped_calm_l k st st1 st2 : calm st st1 -> dropped k st1 st2 -> dropped k st st2.
Proof.
  intros (S & D & Mk) H. unfold dropped in *. by rewrite <- Mk, <- D.
Qed.

Lemma dropped_calm_r k st st1 st2 : dropped k st st1 -> calm st1 st2 -> dropped k st st2.
Proof.
  intros H (S & D & Mk). unfold dropped in *. by rewrite S, D, Mk.
Qed.

Lemma sockets_made_emit k e st :
  sockets_made k (emit e st) =
  (sockets_made k st ++ if made_for k e then [e] else [])%list.
Proof.
  unfold sockets_made. simpl. rewrite List.filter_app. simpl.
  by destruct (made_for k e).
Qed.

Lemma calm_set_sseClients f st : calm st (set_sseClients f st).
Proof. by repeat split. Qed.

Lemma calm_set_reconnecting f st : calm st (set_reconnecting f st).
Proof. by repeat split. Qed.

Lemma calm_set_timers f st : calm st (set_timers f st).
Proof. by repeat split. Qed.

Lemma calm_emit e st : is_make e = false -> calm st (emit e st).
Proof. intros H. by apply quiet_calm, quiet_emit. Qed.

Lemma calm_schedule_reconnect k st : calm st (schedule_reconnect k st).
Proof.
  unfold schedule_reconnect.
  assert (calm st (emit (SetTimeout k 3000)
            (set_timers (fun ts => (ts ++ [(k, 3000%Z)])%list)
               (set_reconnecting (insert k true) st)))) as H.
  { eapply calm_trans; [apply calm_set_reconnecting|].
    eapply calm_trans; [apply calm_set_timers | by apply calm_emit]. }
  destruct (reconnecting st !! k) as [[]|]; [apply calm_refl | exact H | exact H].
Qed.

Lemma calm_qrSSE w k res st : calm st (snd (qrSSE w k res st)).
Proof.
  unfold qrSSE. destruct (negb _); [apply calm_refl|]. cbv zeta.
  set (st1 := match sseClients st !! k with Some _ => st | None => _ end).
  assert (calm st st1) as H1.
  { unfold st1. destruct (sseClients st !! k); [apply calm_refl | apply calm_set_sseClients]. }
  set (st2 := set_sseClients _ st1).
  assert (calm st st2) as H2 by (eapply calm_trans; [exact H1 | apply calm_set_sseClients]).
  clearbody st2. clear st1 H1.
  destruct (write_ok w (clock st2) res _); simpl.
  - destruct (write_ok w _ res _); simpl;
      (eapply calm_trans; [exact H2|]);
      (eapply calm_trans; by apply calm_emit).
  - eapply calm_trans; [exact H2 | by apply calm_emit].
Qed.

Lemma calm_on_sse_close k res st : calm st (on_sse_close k res st).
Proof.
  unfold on_sse_close. destruct (sseClients st !! k); [|apply calm_refl].
  destruct (Nat.eqb _ 0); apply calm_set_sseClients.
Qed.

(* createSocketForUser, seen from tenant k *)
Lemma keeps_createSocketForUser w user k st :
  keeps k st (snd (createSocketForUser w user st)).
Proof.
  rewrite createSocketForUser_eq. cbv zeta.
  destruct (sessions st !! apiKey user) as [sock|] eqn:Hs; simpl.
  { apply calm_keeps, calm_refl. }
  assert (keeps k st (ensureSessionDir (apiKey user) st)) as Hdir.
  { unfold ensureSessionDir.
    destruct (session_dirs st !! apiKey user) eqn:Hd; [apply calm_keeps, calm_refl|].
    split; [left; by split|]. simpl.
    destruct (decide (apiKey user = k)) as [<-|Hne].
    - right. split; [done|]. by rewrite lookup_insert_eq.
    - left. by rewrite lookup_insert_ne. }
  assert (sessions (ensureSessionDir (apiKey user) st) = sessions st) as Hsame.
  { unfold ensureSessionDir. by destruct (session_dirs st !! apiKey user). }
  assert (sockets_made k (ensureSessionDir (apiKey user) st) = sockets_made k st) as Hmade.
  { unfold ensureSessionDir. by destruct (session_dirs st !! apiKey user). }
  set (st1 := ensureSessionDir (apiKey user) st) in *.
  destruct (open_error w (clock st1) (apiKey user)); simpl; [exact Hdir|].
  destruct Hdir as [_ Hd]. split; [|exact Hd].
  destruct (decide (apiKey user = k)) as [<-|Hne].
  - right. split; [done|]. exists (next_sock st1). simpl.
    split; [by rewrite lookup_insert_eq|].
    unfold sockets_made in *. simpl. rewrite List.filter_app, Hmade. simpl.
    by rewrite String.eqb_refl.
  - left. simpl. rewrite lookup_insert_ne, Hsame by done. split; [done|].
    unfold sockets_made in *. simpl. rewrite List.filter_app, Hmade. simpl.
    apply String.eqb_neq in Hne. rewrite Hne. by rewrite app_nil_r.
Qed.

Lemma cleanup_logged_out_eq w user st :
  cleanup_logged_out w user st =
  sendSSE w (apiKey user) "logged_out" (JObj [])
    (rmSessionDir w (apiKey user)
       (without_session w (apiKey user) (saveLog (user_id user) "logged_out" st))).
Proof. reflexivity. Qed.

Lemma logout_eq w req st :
  snd (logout w req st) =
  saveLog (user_id (req_user req)) "logout"
    (sendSSE w (apiKey (req_user req)) "logged_out" (JObj [])
       (rmSessionDir w (apiKey (req_user req))
          (without_session w (apiKey (req_user req)) st))).
Proof. reflexivity. Qed.

(* fs.rmSync touches the directory table only, and only when it does not
   throw. *)
Lemma rmSessionDir_spec w k st :
  sessions (rmSessionDir w k st) = sessions st /\
  reconnecting (rmSessionDir w k st) = reconnecting st /\
  sseClients (rmSessionDir w k st) = sseClients st /\
  timers (rmSessionDir w k st) = timers st /\
  next_sock (rmSessionDir w k st) = next_sock st /\
  trace (rmSessionDir w k st) =
    (trace st ++ [RmSync k (negb (rm_fails w (clock st) k))])%list /\
  session_dirs (rmSessionDir w k st) =
    if rm_fails w (clock st) k then session_dirs st else delete k (session_dirs st).
Proof. unfold rmSessionDir. by destruct (rm_fails w (clock st) k). Qed.

Lemma rmSessionDir_sockets_made w k k' st :
  sockets_made k' (rmSessionDir w k st) = sockets_made k' st.
Proof.
  destruct (rmSessionDir_spec w k st) as (_ & _ & _ & _ & _ & T & _).
  unfold sockets_made. rewrite T, List.filter_app. simpl. by rewrite app_nil_r.
Qed.

Lemma without_session_sessions w k st :
  sessions (without_session w k st) = delete k (sessions st).
Proof.
  unfold without_session. destruct (sessions st !! k) as [sock|] eqn:H.
  - unfold call. by destruct (sock_call w _ _ _ _).
  - symmetry. by apply delete_id.
Qed.

Lemma without_session_others w k st :
  reconnecting (without_session w k st) = reconnecting st /\
  sseClients (without_session w k st) = sseClients st /\
  session_dirs (without_session w k st) = session_dirs st /\
  timers (without_session w k st) = timers st /\
  next_sock (without_session w k st) = next_sock st /\
  forall k', sockets_made k' (without_session w k st) = sockets_made k' st.
Proof.
  unfold without_session. destruct (sessions st !! k) as [sock|]; [|done].
  unfold call. destruct (sock_call w _ _ _ _); simpl; repeat split; intros;
    unfold sockets_made; simpl; rewrite List.filter_app; simpl; by rewrite app_nil_r.
Qed.

Lemma removal_dropped w k st :
  dropped k st (rmSessionDir w k (without_session w k st)).
Proof.
  destruct (without_session_others w k st) as (_ & _ & D & _ & _ & Mk).
  destruct (rmSessionDir_spec w k (without_session w k st))
    as (S' & _ & _ & _ & _ & _ & D').
  split; [|split].
  - rewrite S', without_session_sessions. apply lookup_delete_eq.
  - rewrite D', D. destruct (rm_fails w _ k); [by right | left; apply lookup_delete_eq].
  - rewrite rmSessionDir_sockets_made. apply Mk.
Qed.

Lemma removal_keeps w k k' st :
  k' <> k -> keeps k st (rmSessionDir w k' (without_session w k' st)).
Proof.
  intros Hne. destruct (without_session_others w k' st) as (_ & _ & D & _ & _ & Mk).
  destruct (rmSessionDir_spec w k' (without_session w k' st))
    as (S' & _ & _ & _ & _ & _ & D').
  split; left.
  - rewrite S', without_session_sessions, lookup_delete_ne by done.
    split; [done|]. rewrite rmSessionDir_sockets_made. apply Mk.
  - rewrite D', D. destruct (rm_fails w _ k'); [done | by rewrite lookup_delete_ne].
Qed.

(* One step, seen from tenant k: either the step logs k out and k is
   dropped, or it does not, and k keeps what it has or has its credentials
   saved. *)
Lemma exec_tenant w l st k :
  logs_out w l k /\ dropped k st (exec w l st) \/
  ~ logs_out w l k /\ (keeps k st (exec w l st) \/ saved k l st (exec w l st)).
Proof.
  destruct l as [req|req|c req|req|k' res|k' res|res|user update|k' creds
                |user sock m|user event|k']; unfold exec, logs_out.
  - right. split; [tauto|]. left. unfold connect, handler, bind, ret.
    pose proof (keeps_createSocketForUser w (req_user req) k st) as H.
    by destruct (createSocketForUser w (req_user req) st) as [[?|?] ?].
  - right. split; [tauto|]. left. apply calm_keeps, calm_refl.
  - right. split; [tauto|]. left. apply calm_keeps, quiet_calm, dispatch_quiet.
  - rewrite logout_eq.
    destruct (decide (apiKey (req_user req) = k)) as [<-|Hne].
    + left. split; [done|].
      eapply dropped_calm_r; [apply removal_dropped|].
      eapply calm_trans; apply quiet_calm; [apply quiet_sendSSE | apply quiet_saveLog].
    + right. split; [done|]. left.
      eapply keeps_calm_r; [by apply removal_keeps|].
      eapply calm_trans; apply quiet_calm; [apply quiet_sendSSE | apply quiet_saveLog].
  - right. split; [tauto|]. left. apply calm_keeps, calm_qrSSE.
  - right. split; [tauto|]. left. apply calm_keeps, calm_on_sse_close.
  - right. split; [tauto|]. left. by apply calm_keeps, calm_emit.
  - change (on_connection_update w user update st)
      with (on_close w user update (before_close w user update st)).
    pose proof (quiet_calm _ _ (quiet_before_close w user update st)) as Hq.
    unfold on_close, is_close, terminal.
    destruct (strict_eq_str (connection update) "close").
    2:{ right. split; [intros [_ [? _]]; done | left; by apply calm_keeps]. }
    assert (calm st (saveLog (user_id user) "connection_close"
                       (before_close w user update st))) as Hq'.
    { eapply calm_trans; [exact Hq | apply quiet_calm, quiet_saveLog]. }
    destruct (strict_eq_num (statusCode update) (loggedOut w)).
    + rewrite cleanup_logged_out_eq.
      assert (forall s, calm s (saveLog (user_id user) "logged_out" s)) as Hl
        by (intros; apply quiet_calm, quiet_saveLog).
      destruct (decide (apiKey user = k)) as [<-|Hne].
      * left. split; [done|].
        eapply dropped_calm_l; [eapply calm_trans; [exact Hq' | apply Hl]|].
        eapply dropped_calm_r; [apply removal_dropped | apply quiet_calm, quiet_sendSSE].
      * right. split; [intros [? _]; done|]. left.
        eapply keeps_calm_l; [eapply calm_trans; [exact Hq' | apply Hl]|].
        eapply keeps_calm_r; [by apply removal_keeps | apply quiet_calm, quiet_sendSSE].
    + right. split; [intros [_ [_ ?]]; done|]. left.
      apply calm_keeps. eapply calm_trans; [exact Hq' | apply calm_schedule_reconnect].
  - right. split; [tauto|]. unfold on_creds_update.
    destruct (session_dirs st !! k') as [b|] eqn:Hd; [|left; apply calm_keeps, calm_refl].
    destruct (decide (k' = k)) as [->|Hne].
    + right. exists creds. by rewrite Hd.
    + left. split; left; [by split|]. simpl. by rewrite lookup_insert_ne.
  - right. split; [tauto|]. left. apply calm_keeps, quiet_calm, quiet_on_messages_upsert.
  - right. split; [tauto|]. left. apply calm_keeps, quiet_calm, quiet_saveLog.
  - right. split; [tauto|]. left. unfold reconnect_callback. cbv zeta.
    eapply keeps_calm_r; [|apply calm_set_reconnecting].
    eapply keeps_calm_l; [apply calm_set_timers|].
    eapply keeps_calm_l; [by apply (calm_emit (UserLookup k'))|].
    destruct (findOne w _ k'); [apply keeps_createSocketForUser | apply calm_keeps, calm_refl].
Qed.

(* --------------------------------------------------------------------- *)
(* The registry                                                           *)
(* --------------------------------------------------------------------- *)

(** C1, as the claim states it, fails: alice connects, the logout route
    drops her registry entry although her socket rejected the logout, and
    her next connect makes a second socket; two sockets made for her are
    live, neither was logged out. *)
Lemma one_live_session_counterexample :
  ~ (forall w st k, reachable w st -> length (live_sockets k st) <= 1).
Proof.
  intros H.
  assert (reachable stubborn_world alice_relinked) as Hr.
  { unfold alice_relinked. repeat (apply reach_step; [|exact I]). apply reach_init. }
  specialize (H stubborn_world alice_relinked "a1b2" Hr).
  vm_compute in H. lia.
Qed.

(* Calls of createSocketForUser that overlap: both pass the test of the
   registry before either writes into it, each makes a socket, and the
   registry keeps the second only. *)
Lemma racing_connects_make_two_sockets w user st :
  sessions st !! apiKey user = None ->
  (forall n, open_error w n (apiKey user) = None) ->
  sockets_made (apiKey user) (racing_connects w user st) =
    (sockets_made (apiKey user) st ++
     [MakeSocket (apiKey user) (next_sock st);
      MakeSocket (apiKey user) (S (next_sock st))])%list /\
  sessions (racing_connects w user st) !! apiKey user = Some (S (next_sock st)) /\
  sock_calls (racing_connects w user st) = sock_calls st.
Proof.
  intros Hs Ho. unfold racing_connects, createSocketForUser_enter. cbv zeta.
  rewrite Hs. cbn [snd].
  assert (sessions (ensureSessionDir (apiKey user) st) = sessions st /\
          next_sock (ensureSessionDir (apiKey user) st) = next_sock st /\
          trace (ensureSessionDir (apiKey user) st) = trace st) as (E1 & E2 & E3).
  { unfold ensureSessionDir. by destruct (session_dirs st !! apiKey user). }
  rewrite E1, Hs. cbn [snd].
  assert (ensureSessionDir (apiKey user) (ensureSessionDir (apiKey user) st) =
          ensureSessionDir (apiKey user) st) as ->.
  { unfold ensureSessionDir at 1.
    destruct (session_dirs (ensureSessionDir (apiKey user) st) !! apiKey user) eqn:E;
      [done|].
    exfalso. unfold ensureSessionDir in E.
    destruct (session_dirs st !! apiKey user) eqn:E'; [congruence|].
    simpl in E. by rewrite lookup_insert_eq in E. }
  generalize dependent (ensureSessionDir (apiKey user) st). intros s E1 E2 E3.
  unfold createSocketForUser_resume. cbv zeta. rewrite !Ho. cbn [snd].
  rewrite ?Ho. cbn [snd]. simpl.
  rewrite lookup_insert_eq, E2. unfold sockets_made, sock_calls. simpl.
  rewrite E3, !List.filter_app. simpl. rewrite String.eqb_refl.
  rewrite <- !app_assoc, !app_nil_r. done.
Qed.

(** C1, amended: while the registry holds a session for a tenant,
    createSocketForUser returns at its first test with that session and
    leaves the state untouched, the connect route answers success and
    changes nothing, no handler that is run to its end from there makes a
    socket for that tenant, and afterwards the registry still holds the
    same session unless the handler logged the tenant out (logout route
    or terminal close); a handler that logs the tenant out always leaves
    the registry without a session for it, and the resumption of a
    suspended createSocketForUser never removes the entry. *)
Theorem connect_reuses_session w st k sock l :
  sessions st !! k = Some sock ->
  (forall user, apiKey user = k ->
     createSocketForUser_enter user st = (Some sock, st) /\
     createSocketForUser w user st = (Ok sock, st)) /\
  (forall req, apiKey (req_user req) = k ->
     exists answer, connect w req st = (success answer, st)) /\
  sockets_made k (exec w l st) = sockets_made k st /\
  (sessions (exec w l st) !! k = Some sock \/
   sessions (exec w l st) !! k = None /\ logs_out w l k) /\
  (logs_out w l k -> sessions (exec w l st) !! k = None) /\
  (forall user, is_Some (sessions (snd (createSocketForUser_resume w user st)) !! k)).
Proof.
  intros Hs. split; [|split; [|split; [|split; [|split]]]].
  - intros user <-. unfold createSocketForUser, createSocketForUser_enter.
    by rewrite Hs.
  - intros req <-. eexists. unfold connect, handler, bind.
    rewrite createSocketForUser_eq. by rewrite Hs.
  - destruct (exec_tenant w l st k) as [[_ (_ & _ & Hm)]|[_ [[[[_ Hm]|[Hn _]] _]|Hc]]];
      [done | done | congruence |].
    destruct Hc as (c & _ & _ & ->). reflexivity.
  - destruct (exec_tenant w l st k) as [[Hl (Hn & _)]|[_ [[[[He _]|[Hn _]] _]|Hc]]].
    + right. by split.
    + left. by rewrite He.
    + congruence.
    + destruct Hc as (c & _ & _ & ->). by left.
  - intros Hl. destruct (exec_tenant w l st k) as [[_ (Hn & _)]|[Hn _]]; done.
  - intros user. unfold createSocketForUser_resume. cbv zeta.
    destruct (open_error w (clock st) (apiKey user)); simpl; [by rewrite Hs|].
    destruct (decide (apiKey user = k)) as [->|Hne].
    + rewrite lookup_insert_eq. by eexists.
    + rewrite lookup_insert_ne by done. by rewrite Hs.
Qed.

Lemma connect_reuses_session_witness :
  sessions alice_linked !! "a1b2" = Some 0 /\
  exists answer,
    connect demo_world (alice_req []) alice_linked = (success answer, alice_linked).
Proof.
  assert (sessions alice_linked !! "a1b2" = Some 0) as H by (vm_compute; reflexivity).
  split; [exact H|].
  destruct (connect_reuses_session demo_world alice_linked "a1b2" 0
              (LConnect (alice_req [])) H) as (_ & Hc & _).
  apply Hc. reflexivity.
Defined.

(* --------------------------------------------------------------------- *)
(* The close branch                                                       *)
(* --------------------------------------------------------------------- *)

Lemma quiet_at_close w user update st : quiet st (at_close w user update st).
Proof.
  eapply quiet_trans; [apply quiet_before_close | apply quiet_saveLog].
Qed.

Lemma on_connection_update_close w user update st :
  is_close update = true ->
  on_connection_update w user update st =
  if terminal w update
  then cleanup_logged_out w user (at_close w user update st)
  else schedule_reconnect (apiKey user) (at_close w user update st).
Proof.
  intros Hc. unfold on_connection_update, on_close. cbv zeta.
  unfold is_close in Hc. rewrite Hc. reflexivity.
Qed.

Lemma idle_refl st : idle st st.
Proof. by split. Qed.

Lemma idle_trans st1 st2 st3 : idle st1 st2 -> idle st2 st3 -> idle st1 st3.
Proof. intros [T1 R1] [T2 R2]. split; congruence. Qed.

Lemma quiet_idle st st' : quiet st st' -> idle st st'.
Proof. intros H. split; [by apply quiet_timers | by apply quiet_reconnecting]. Qed.

Lemma idle_removal w k st : idle st (rmSessionDir w k (without_session w k st)).
Proof.
  destruct (without_session_others w k st) as (R & _ & _ & T & _).
  destruct (rmSessionDir_spec w k (without_session w k st)) as (_ & R' & _ & T' & _).
  split; congruence.
Qed.

Lemma idle_cleanup_logged_out w user st : idle st (cleanup_logged_out w user st).
Proof.
  rewrite cleanup_logged_out_eq.
  eapply idle_trans; [apply quiet_idle, quiet_saveLog|].
  eapply idle_trans; [apply idle_removal | apply quiet_idle, quiet_sendSSE].
Qed.

Lemma idle_logout w req st : idle st (snd (logout w req st)).
Proof.
  rewrite logout_eq.
  eapply idle_trans; [apply idle_removal|].
  eapply idle_trans; apply quiet_idle; [apply quiet_sendSSE | apply quiet_saveLog].
Qed.

Lemma sse_write_all_writes w ev payload clients :
  forall st, exists new,
    trace (sse_write_all w ev payload clients st) = (trace st ++ new)%list /\
    forall res, res ∈ clients -> written ev payload new res.
Proof.
  induction clients as [|r rest IH]; intros st; simpl.
  - exists []. split; [by rewrite app_nil_r|]. intros res Hin. by apply elem_of_nil in Hin.
  - assert (exists w1, trace (sse_write w ev payload r st) = (trace st ++ w1)%list /\
                       written ev payload w1 r) as (w1 & E1 & W1).
    { unfold sse_write. cbv zeta. fold (event_line ev). fold (data_line payload).
      destruct (write_ok w (clock st) r (event_line ev)) eqn:Hok.
      - eexists [_; _]. split; [simpl; by rewrite <- app_assoc|].
        exists true. split; [by left|]. intros _. eexists. right. by left.
      - eexists [_]. split; [reflexivity|].
        exists false. split; [by left | done]. }
    destruct (IH (sse_write w ev payload r st)) as (new & E & W).
    exists (w1 ++ new)%list. split; [by rewrite E, E1, <- app_assoc|].
    intros res Hin. apply elem_of_cons in Hin as [->|Hin].
    + destruct W1 as (ok & H1 & H2). exists ok. split; [apply in_or_app; by left|].
      intros Hok. destruct (H2 Hok) as (ok2 & H3). exists ok2. apply in_or_app. by left.
    + destruct (W res Hin) as (ok & H1 & H2). exists ok. split; [apply in_or_app; by right|].
      intros Hok. destruct (H2 Hok) as (ok2 & H3). exists ok2. apply in_or_app. by right.
Qed.

Lemma sendSSE_writes w k ev data st clients :
  sseClients st !! k = Some clients ->
  exists new,
    trace (sendSSE w k ev data st) = (trace st ++ new)%list /\
    forall res, res ∈ clients -> written ev (sse_payload w data) new res.
Proof.
  intros H. unfold sendSSE. rewrite H. apply sse_write_all_writes.
Qed.

Lemma written_app ev payload pre new post res :
  written ev payload new res -> written ev payload (pre ++ new ++ post)%list res.
Proof.
  intros (ok & H1 & H2). exists ok. split.
  - apply in_or_app. right. apply in_or_app. by left.
  - intros Hok. destruct (H2 Hok) as (ok2 & H3). exists ok2.
    apply in_or_app. right. apply in_or_app. by left.
Qed.

Lemma without_session_calls w k st :
  trace (without_session w k st) =
  (trace st ++
   match sessions st !! k with
   | Some sock => [SockCall sock "logout" [] (sock_call w (clock st) sock "logout" [])]
   | None => []
   end)%list.
Proof.
  unfold without_session. destruct (sessions st !! k) as [sock|].
  - unfold call. by destruct (sock_call w _ _ _ _).
  - by rewrite app_nil_r.
Qed.

(* The removal: the registry entry goes whatever the logout call answers,
   fs.rmSync is attempted once and decides alone whether the directory
   goes, and the subscribers are told. *)
Lemma removal_spec w k st :
  sessions (removal w k st) = delete k (sessions st) /\
  reconnecting (removal w k st) = reconnecting st /\
  sseClients (removal w k st) = sseClients st /\
  timers (removal w k st) = timers st /\
  next_sock (removal w k st) = next_sock st /\
  exists n pub,
    trace (removal w k st) =
      (trace (without_session w k st) ++ RmSync k (negb (rm_fails w n k)) :: pub)%list /\
    existsb is_make pub = false /\
    session_dirs (removal w k st) =
      (if rm_fails w n k then session_dirs st else delete k (session_dirs st)) /\
    (forall clients, sseClients st !! k = Some clients ->
       forall res, res ∈ clients ->
         written "logged_out" (sse_payload w (JObj [])) pub res).
Proof.
  unfold removal.
  destruct (without_session_others w k st) as (R & C & D & T & N & _).
  pose proof (without_session_sessions w k st) as S1.
  destruct (rmSessionDir_spec w k (without_session w k st))
    as (S2 & R2 & C2 & T2 & N2 & E2 & D2).
  pose proof (quiet_sendSSE w k "logged_out" (JObj [])
                (rmSessionDir w k (without_session w k st))) as [Tq (pub & Eq & Fq)].
  unfold tables in Tq. injection Tq as Hs Hr Hc Hd Ht Hn.
  split; [congruence|]. split; [congruence|]. split; [congruence|].
  split; [congruence|]. split; [congruence|].
  exists (clock (without_session w k st)), pub.
  split; [by rewrite Eq, E2, <- app_assoc|].
  split; [exact Fq|].
  split; [rewrite Hd, D2, D; reflexivity|].
  intros clients Hcl res Hin.
  assert (sseClients (rmSessionDir w k (without_session w k st)) !! k = Some clients)
    as Hcl' by (by rewrite C2, C).
  destruct (sendSSE_writes w k "logged_out" (JObj []) _ clients Hcl') as (new & E' & W).
  rewrite Eq in E'. apply app_inv_head in E'. subst new. by apply W.
Qed.

(* Both log-out paths run the removal between effects that change no
   table. *)
Lemma logs_out_removal w l st k :
  logs_out w l k ->
  exists s, quiet st s /\ quiet (removal w k s) (exec w l st).
Proof.
  destruct l as [| | |req| | | |user update| | | |]; unfold logs_out, exec; try done.
  - intros <-. exists st. split; [apply quiet_refl|].
    rewrite logout_eq. apply quiet_saveLog.
  - intros (<- & Hc & Ht).
    exists (saveLog (user_id user) "logged_out" (at_close w user update st)).
    split.
    + eapply quiet_trans; [|apply quiet_saveLog].
      eapply quiet_trans; [apply quiet_before_close | apply quiet_saveLog].
    + unfold on_connection_update, on_close. cbv zeta.
      unfold is_close in Hc. unfold terminal in Ht. rewrite Hc, Ht.
      rewrite cleanup_logged_out_eq. apply quiet_refl.
Qed.

(* What a step that logs tenant k out does. *)
Lemma logs_out_spec w l st k :
  logs_out w l k ->
  sessions (exec w l st) = delete k (sessions st) /\
  reconnecting (exec w l st) = reconnecting st /\
  sseClients (exec w l st) = sseClients st /\
  timers (exec w l st) = timers st /\
  next_sock (exec w l st) = next_sock st /\
  exists n new,
    trace (exec w l st) = (trace st ++ new)%list /\
    In (RmSync k (negb (rm_fails w n k))) new /\
    existsb is_make new = false /\
    session_dirs (exec w l st) =
      (if rm_fails w n k then session_dirs st else delete k (session_dirs st)) /\
    (forall sock, sessions st !! k = Some sock ->
       exists o, In (SockCall sock "logout" [] o) new) /\
    (forall clients, sseClients st !! k = Some clients ->
       forall res, res ∈ clients ->
         written "logged_out" (sse_payload w (JObj [])) new res).
Proof.
  intros Hl. destruct (logs_out_removal w l st k Hl) as (s & [T1 (n1 & E1 & F1)] & Q3).
  destruct Q3 as [T3 (n3 & E3 & F3)].
  destruct (removal_spec w k s) as (S2 & R2 & C2 & T2 & N2 & n & pub & E2 & F2 & D2 & W2).
  unfold tables in T1, T3.
  injection T1 as Hs1 Hr1 Hc1 Hd1 Ht1 Hn1. injection T3 as Hs3 Hr3 Hc3 Hd3 Ht3 Hn3.
  split; [congruence|]. split; [congruence|]. split; [congruence|].
  split; [congruence|]. split; [congruence|].
  rewrite without_session_calls in E2.
  set (pre := match sessions s !! k with
              | Some sock => [SockCall sock "logout" [] (sock_call w (clock s) sock "logout" [])]
              | None => []
              end) in *.
  exists n, ((n1 ++ pre ++ [RmSync k (negb (rm_fails w n k))]) ++ pub ++ n3)%list.
  split; [rewrite E3, E2, E1, <- !app_assoc; reflexivity|].
  split.
  { apply in_or_app. left. apply in_or_app. right. apply in_or_app. right. by left. }
  split.
  { rewrite !existsb_app, F1, F2, F3. simpl. rewrite orb_false_r.
    unfold pre. by destruct (sessions s !! k). }
  split; [rewrite Hd3, D2, Hd1; reflexivity|].
  split.
  - intros sock Hsock. eexists.
    apply in_or_app. left. apply in_or_app. right. apply in_or_app. left.
    unfold pre. rewrite Hs1, Hsock. by left.
  - intros clients Hcl res Hin. apply written_app, (W2 clients); [congruence | done].
Qed.

(* A close with any other reason: the reconnection branch, which touches
   neither sessions nor directories. *)
Lemma transient_close_calm w user update st :
  is_close update = true -> terminal w update = false ->
  on_connection_update w user update st =
    schedule_reconnect (apiKey user) (at_close w user update st) /\
  calm st (on_connection_update w user update st).
Proof.
  intros Hc Ht. rewrite (on_connection_update_close _ _ _ _ Hc), Ht.
  split; [done|].
  eapply calm_trans; [apply quiet_calm, quiet_at_close | apply calm_schedule_reconnect].
Qed.

(* The reconnection branch under a lowered and under a raised guard. *)
Lemma transient_close_guard w user update st :
  is_close update = true -> terminal w update = false ->
  (reconnecting st !! apiKey user <> Some true ->
     timers (on_connection_update w user update st) =
       (timers st ++ [(apiKey user, 3000%Z)])%list /\
     reconnecting (on_connection_update w user update st) =
       <[apiKey user := true]> (reconnecting st) /\
     exists new,
       trace (on_connection_update w user update st) =
         (trace st ++ new ++ [SetTimeout (apiKey user) 3000])%list) /\
  (reconnecting st !! apiKey user = Some true ->
     tables (on_connection_update w user update st) = tables st).
Proof.
  intros Hc Ht. rewrite (on_connection_update_close _ _ _ _ Hc), Ht.
  pose proof (quiet_at_close w user update st) as Hq.
  generalize dependent (at_close w user update st). intros s [T (new & E & _)].
  unfold tables in T. injection T as Hs Hr Hcl Hd Htm Hn.
  unfold schedule_reconnect. rewrite Hr. split.
  - intros Hg.
    destruct (reconnecting st !! apiKey user) as [[]|] eqn:Eg; [done| |]; simpl;
      rewrite Hr, Htm, E; (split; [done|]; split; [done|]);
      exists new; by rewrite <- app_assoc.
  - intros ->. unfold tables. congruence.
Qed.

(** C2: for a close event, the reason is classified terminal exactly when
    the status code is the number DisconnectReason.loggedOut; an absent
    code is transient.  A terminal close runs the logged-out cleanup: the
    tenant's registry entry is removed after a logout call on the
    registered socket, fs.rmSync is attempted on the tenant's directory,
    which goes unless that call throws, logged_out is published to the
    subscribers, and neither timer nor guard is touched.  Any other close
    runs the reconnection branch: sessions and directories are as before;
    with the guard lowered it raises the guard and sets one timer of 3000
    ms, with the guard raised it changes no table. *)
Theorem close_reason_classification w user update st :
  is_close update = true ->
  (terminal w update = true <-> statusCode update = JNum (loggedOut w)) /\
  (statusCode update = JUndefined -> terminal w update = false) /\
  (terminal w update = true ->
     on_connection_update w user update st =
       cleanup_logged_out w user (at_close w user update st) /\
     sessions (on_connection_update w user update st) !! apiKey user = None /\
     sessions (on_connection_update w user update st) = delete (apiKey user) (sessions st) /\
     timers (on_connection_update w user update st) = timers st /\
     reconnecting (on_connection_update w user update st) = reconnecting st /\
     exists n new,
       trace (on_connection_update w user update st) = (trace st ++ new)%list /\
       In (RmSync (apiKey user) (negb (rm_fails w n (apiKey user)))) new /\
       session_dirs (on_connection_update w user update st) =
         (if rm_fails w n (apiKey user) then session_dirs st
          else delete (apiKey user) (session_dirs st)) /\
       (forall sock, sessions st !! apiKey user = Some sock ->
          exists o, In (SockCall sock "logout" [] o) new) /\
       (forall clients, sseClients st !! apiKey user = Some clients ->
          forall res, res ∈ clients ->
            written "logged_out" (sse_payload w (JObj [])) new res)) /\
  (terminal w update = false ->
     on_connection_update w user update st =
       schedule_reconnect (apiKey user) (at_close w user update st) /\
     sessions (on_connection_update w user update st) = sessions st /\
     session_dirs (on_connection_update w user update st) = session_dirs st /\
     (reconnecting st !! apiKey user <> Some true ->
        timers (on_connection_update w user update st) =
          (timers st ++ [(apiKey user, 3000%Z)])%list /\
        reconnecting (on_connection_update w user update st) =
          <[apiKey user := true]> (reconnecting st) /\
        exists new,
          trace (on_connection_update w user update st) =
            (trace st ++ new ++ [SetTimeout (apiKey user) 3000])%list) /\
     (reconnecting st !! apiKey user = Some true ->
        tables (on_connection_update w user update st) = tables st)).
Proof.
  intros Hc. split; [|split; [|split]].
  - unfold terminal, strict_eq_num. split.
    + destruct (statusCode update); try done.
      intros H. apply Z.eqb_eq in H. by subst.
    + intros ->. apply Z.eqb_refl.
  - unfold terminal. by intros ->.
  - intros Ht.
    split; [by rewrite (on_connection_update_close _ _ _ _ Hc), Ht|].
    assert (logs_out w (LConnectionUpdate user update) (apiKey user)) as Hl
      by (simpl; by repeat split).
    destruct (logs_out_spec w _ st _ Hl)
      as (S & R & _ & T & _ & n & new & E & Hrm & _ & D & Hcall & W).
    change (exec w (LConnectionUpdate user update) st)
      with (on_connection_update w user update st) in *.
    split; [rewrite S; apply lookup_delete_eq|].
    split; [exact S|]. split; [exact T|]. split; [exact R|].
    exists n, new. split; [exact E|]. split; [exact Hrm|]. split; [exact D|].
    split; [exact Hcall | exact W].
  - intros Ht. destruct (transient_close_calm w user update st Hc Ht) as [E (? & ? & _)].
    destruct (transient_close_guard w user update st Hc Ht) as [Ho Hg].
    split; [exact E|]. split; [done|]. split; [done|]. split; [exact Ho | exact Hg].
Qed.

Lemma close_reason_classification_witness :
  terminal demo_world terminal_close = true /\
  terminal demo_world transient_close = false /\
  terminal demo_world dropped_close = false /\
  sessions (on_connection_update demo_world alice terminal_close alice_linked)
    !! "a1b2" = None /\
  sessions (on_connection_update demo_world alice dropped_close alice_linked)
    = sessions alice_linked /\
  timers (on_connection_update demo_world alice dropped_close alice_linked)
    = [("a1b2", 3000%Z)].
Proof.
  assert (is_close terminal_close = true) as H1 by reflexivity.
  assert (is_close dropped_close = true) as H2 by reflexivity.
  destruct (close_reason_classification demo_world alice terminal_close alice_linked H1)
    as ([_ T1] & _ & C1 & _).
  destruct (close_reason_classification demo_world alice dropped_close alice_linked H2)
    as (_ & T2 & _ & C2).
  split; [apply T1; reflexivity|].
  split; [reflexivity|].
  split; [apply T2; reflexivity|].
  split; [|split].
  - apply C1. apply T1. reflexivity.
  - apply C2. apply T2. reflexivity.
  - assert (reconnecting alice_linked !! apiKey alice <> Some true) as Hg
      by (vm_compute; discriminate).
    destruct (C2 (T2 eq_refl)) as (_ & _ & _ & Ho & _).
    destruct (Ho Hg) as [HT _]. exact HT.
Defined.




(* --------------------------------------------------------------------- *)
(* Reconnection timers                                                    *)
(* --------------------------------------------------------------------- *)

Lemma idle_pending k st st' : idle st st' -> pending k st' = pending k st.
Proof. intros [T _]. unfold pending. by rewrite T. Qed.

Lemma timers_guarded_idle st st' : idle st st' -> timers_guarded st -> timers_guarded st'.
Proof.
  intros Hi H k. destruct (H k) as [H1 H2].
  rewrite (idle_pending k _ _ Hi). destruct Hi as [_ R]. rewrite R. by split.
Qed.

Lemma idle_createSocketForUser w user st :
  idle st (snd (createSocketForUser w user st)).
Proof.
  rewrite createSocketForUser_eq. cbv zeta.
  destruct (sessions st !! apiKey user); [apply idle_refl|].
  assert (idle st (ensureSessionDir (apiKey user) st)) as H.
  { unfold ensureSessionDir. by destruct (session_dirs st !! apiKey user). }
  destruct (open_error w _ (apiKey user)); [exact H|].
  destruct H as [T R]. by split.
Qed.

Lemma idle_qrSSE w k res st : idle st (snd (qrSSE w k res st)).
Proof.
  unfold qrSSE. destruct (negb _); [apply idle_refl|]. cbv zeta.
  assert (idle st match sseClients st !! k with
                  | Some _ => st
                  | None => set_sseClients (insert k []) st
                  end) as [T R] by (by destruct (sseClients st !! k)).
  destruct (write_ok w _ res _); [destruct (write_ok w _ res _)|]; by split.
Qed.

Lemma idle_on_sse_close k res st : idle st (on_sse_close k res st).
Proof.
  unfold on_sse_close. destruct (sseClients st !! k); [|apply idle_refl].
  by destruct (Nat.eqb _ 0).
Qed.

Lemma idle_on_creds_update k creds st : idle st (on_creds_update k creds st).
Proof. unfold on_creds_update. by destruct (session_dirs st !! k). Qed.

Lemma pending_schedule_reconnect k k' st :
  pending k' (schedule_reconnect k st) =
  match reconnecting st !! k with
  | Some true => pending k' st
  | _ => pending k' st + (if String.eqb k k' then 1 else 0)
  end.
Proof.
  unfold schedule_reconnect, pending.
  destruct (reconnecting st !! k) as [[]|]; [done| |];
    simpl; rewrite List.filter_app, length_app; simpl;
    by destruct (String.eqb k k').
Qed.

Lemma timers_guarded_schedule_reconnect k st :
  timers_guarded st -> timers_guarded (schedule_reconnect k st).
Proof.
  intros H k'. rewrite pending_schedule_reconnect.
  destruct (H k') as [H1 H2]. destruct (H k) as [_ H3].
  assert (reconnecting st !! k <> Some true ->
          pending k' st + (if String.eqb k k' then 1 else 0) <= 1 /\
          (0 < pending k' st + (if String.eqb k k' then 1 else 0) ->
           <[k:=true]> (reconnecting st) !! k' = Some true)) as Hopen.
  { intros Hg. destruct (String.eqb_spec k k') as [<-|Hne].
    - assert (pending k st = 0) as -> by (destruct (pending k st); [done|]; exfalso; apply Hg, H3; lia).
      split; [simpl; lia|]. intros _. apply lookup_insert_eq.
    - rewrite Nat.add_0_r. split; [done|]. intros Hp. rewrite lookup_insert_ne by done. auto. }
  unfold schedule_reconnect.
  destruct (reconnecting st !! k) as [[]|] eqn:Hg; [by split | |]; apply Hopen; congruence.
Qed.

Lemma pending_remove_timer k k' st :
  pending k' (set_timers (remove_timer k) st) =
  if String.eqb k k' then pred (pending k' st) else pending k' st.
Proof.
  unfold pending. simpl. induction (timers st) as [|[k1 ms] ts IH]; simpl.
  - by destruct (String.eqb k k').
  - destruct (String.eqb_spec k1 k) as [->|Hne]; simpl.
    + by destruct (String.eqb_spec k k') as [->|Hne'].
    + destruct (String.eqb_spec k1 k') as [->|Hne1]; simpl.
      * apply String.eqb_neq in Hne. rewrite String.eqb_sym in Hne.
        rewrite Hne in *. by rewrite IH.
      * exact IH.
Qed.

Lemma timers_guarded_timer w k st :
  timers_guarded st ->
  timers_guarded (reconnect_callback w k (set_timers (remove_timer k) st)).
Proof.
  intros H k'. unfold reconnect_callback. cbv zeta.
  set (st0 := set_timers (remove_timer k) st).
  set (st1 := emit (UserLookup k) st0).
  set (st2 := match findOne w (clock st0) k with
              | Some freshUser => snd (createSocketForUser w freshUser st1)
              | None => st1
              end).
  assert (idle st0 st2) as Hi.
  { unfold st2. destruct (findOne w _ k); [|by split].
    eapply idle_trans; [|apply idle_createSocketForUser]. by split. }
  assert (pending k' (set_reconnecting (insert k false) st2) = pending k' st0) as ->.
  { destruct Hi as [T _]. unfold pending. simpl. by rewrite T. }
  simpl. destruct Hi as [_ ->]. unfold st0. rewrite pending_remove_timer. simpl.
  destruct (H k') as [H1 H2].
  destruct (String.eqb_spec k k') as [<-|Hne].
  - split; [lia|]. intros Hp. lia.
  - split; [done|]. intros Hp. rewrite lookup_insert_ne by done. auto.
Qed.

Lemma exec_idle w l st :
  match l with
  | LConnectionUpdate _ _ | LTimer _ => True
  | _ => idle st (exec w l st)
  end.
Proof.
  destruct l; unfold exec; try exact I.
  - unfold connect, handler, bind, ret.
    pose proof (idle_createSocketForUser w (req_user req) st) as H.
    by destruct (createSocketForUser w (req_user req) st) as [[?|?] ?].
  - apply idle_refl.
  - apply quiet_idle, dispatch_quiet.
  - apply idle_logout.
  - apply idle_qrSSE.
  - apply idle_on_sse_close.
  - by apply quiet_idle, quiet_emit.
  - apply idle_on_creds_update.
  - apply quiet_idle, quiet_on_messages_upsert.
  - apply quiet_idle, quiet_saveLog.
Qed.

Lemma timers_guarded_on_connection_update w user update st :
  timers_guarded st -> timers_guarded (on_connection_update w user update st).
Proof.
  intros H.
  change (on_connection_update w user update st)
    with (on_close w user update (before_close w user update st)).
  pose proof (timers_guarded_idle _ _ (quiet_idle _ _ (quiet_before_close w user update st)) H)
    as H1.
  unfold on_close. destruct (strict_eq_str _ "close"); [|exact H1].
  pose proof (timers_guarded_idle _ _
    (quiet_idle _ _ (quiet_saveLog (user_id user) "connection_close" _)) H1) as H2.
  destruct (strict_eq_num _ _).
  - eapply timers_guarded_idle; [apply idle_cleanup_logged_out | exact H2].
  - by apply timers_guarded_schedule_reconnect.
Qed.

Lemma reachable_timers_guarded w st : reachable w st -> timers_guarded st.
Proof.
  induction 1 as [|st l Hr IH He].
  - intros k. unfold pending. simpl. split; [lia|]. intros; lia.
  - pose proof (exec_idle w l st) as Hi.
    destruct l; try (eapply timers_guarded_idle; [exact Hi | exact IH]).
    + by apply timers_guarded_on_connection_update.
    + by apply timers_guarded_timer.
Qed.

(* After a transient close the socket stays in the registry, so the
   reconnect callback finds it there and makes no new one. *)
Lemma reconnect_reuses_registered_socket w k sock st :
  sessions st !! k = Some sock ->
  (forall user, findOne w (clock st) k = Some user -> apiKey user = k) ->
  sessions (reconnect_callback w k st) = sessions st /\
  next_sock (reconnect_callback w k st) = next_sock st.
Proof.
  intros Hs Hk. unfold reconnect_callback. cbv zeta.
  destruct (findOne w (clock st) k) as [user|] eqn:Hf; [|done].
  rewrite createSocketForUser_eq. simpl. rewrite (Hk user eq_refl), Hs. done.
Qed.

(** C4: in any reachable state, a transient close of a tenant whose guard
    is not raised raises the guard and hands setTimeout one callback with
    a delay of 3000 ms, so that exactly one timer of the tenant is
    pending; with the guard raised the tables are left as they are.
    After the close no tenant has more than one pending timer; while a
    timer of the tenant is pending, a transient close sets no timer, and
    neither does a second transient close that follows the first. *)
Theorem transient_close_schedules_once w user update st :
  reachable w st -> is_close update = true -> terminal w update = false ->
  (reconnecting st !! apiKey user <> Some true ->
     timers (on_connection_update w user update st) =
       (timers st ++ [(apiKey user, 3000%Z)])%list /\
     reconnecting (on_connection_update w user update st) =
       <[apiKey user := true]> (reconnecting st) /\
     pending (apiKey user) (on_connection_update w user update st) = 1) /\
  (reconnecting st !! apiKey user = Some true ->
     tables (on_connection_update w user update st) = tables st) /\
  (0 < pending (apiKey user) st ->
     timers (on_connection_update w user update st) = timers st) /\
  (forall k, pending k (on_connection_update w user update st) <= 1) /\
  (forall update', is_close update' = true -> terminal w update' = false ->
     timers (on_connection_update w user update'
               (on_connection_update w user update st)) =
     timers (on_connection_update w user update st)).
Proof.
  intros Hr Hc Ht.
  pose proof (reachable_timers_guarded w st Hr) as Hg.
  pose proof (timers_guarded_on_connection_update w user update st Hg) as Hg'.
  assert (forall u s, is_close u = true -> terminal w u = false ->
            reconnecting s !! apiKey user = Some true ->
            tables (on_connection_update w user u s) = tables s) as Hnoop.
  { intros u s Hcu Htu Hgu. rewrite (on_connection_update_close _ _ _ _ Hcu), Htu.
    pose proof (quiet_at_close w user u s) as Hq.
    rewrite quiet_schedule_guarded; [by destruct Hq|].
    by rewrite (quiet_reconnecting _ _ Hq). }
  assert (reconnecting st !! apiKey user <> Some true ->
     timers (on_connection_update w user update st) =
       (timers st ++ [(apiKey user, 3000%Z)])%list /\
     reconnecting (on_connection_update w user update st) =
       <[apiKey user := true]> (reconnecting st)) as Hopen.
  { intros Hgu. rewrite (on_connection_update_close _ _ _ _ Hc), Ht.
    pose proof (quiet_reconnecting _ _ (quiet_at_close w user update st)) as HR.
    pose proof (quiet_timers _ _ (quiet_at_close w user update st)) as HT.
    generalize dependent (at_close w user update st). intros s1 HR HT.
    unfold schedule_reconnect. rewrite HR.
    destruct (reconnecting st !! apiKey user) as [[]|] eqn:E; [done| |]; simpl;
      by rewrite HR, HT. }
  split; [|split; [|split; [|split]]].
  - intros Hgu. destruct (Hopen Hgu) as [HT HR]. split; [done|]. split; [done|].
    destruct (Hg (apiKey user)) as [_ Hp].
    assert (pending (apiKey user) st = 0) as H0.
    { destruct (pending (apiKey user) st); [done|]. exfalso. apply Hgu, Hp. lia. }
    unfold pending in *. rewrite HT, List.filter_app, length_app, H0. simpl.
    by rewrite String.eqb_refl.
  - intros Hgu. by apply Hnoop.
  - intros Hp. destruct (Hg (apiKey user)) as [_ Hgu].
    specialize (Hnoop update st Hc Ht (Hgu Hp)). unfold tables in Hnoop. congruence.
  - intros k. apply Hg'.
  - intros update' Hc' Ht'.
    assert (reconnecting (on_connection_update w user update st) !! apiKey user
            = Some true) as Hgu.
    { destruct (reconnecting st !! apiKey user) as [[]|] eqn:E.
      - specialize (Hnoop update st Hc Ht E). unfold tables in Hnoop.
        replace (reconnecting (on_connection_update w user update st))
          with (reconnecting st) by congruence. exact E.
      - destruct Hopen as [_ ->]; [congruence | apply lookup_insert_eq].
      - destruct Hopen as [_ ->]; [congruence | apply lookup_insert_eq]. }
    specialize (Hnoop update' _ Hc' Ht' Hgu). unfold tables in Hnoop. congruence.
Qed.

Lemma alice_linked_reachable : reachable demo_world alice_linked.
Proof.
  unfold alice_linked. repeat (apply reach_step; [|exact I]). apply reach_init.
Defined.

Lemma transient_close_schedules_once_witness :
  timers (on_connection_update demo_world alice transient_close alice_linked) =
    [("a1b2", 3000%Z)] /\
  timers (on_connection_update demo_world alice dropped_close
            (on_connection_update demo_world alice transient_close alice_linked)) =
  timers (on_connection_update demo_world alice transient_close alice_linked).
Proof.
  pose proof (transient_close_schedules_once demo_world alice transient_close
                alice_linked alice_linked_reachable eq_refl eq_refl)
    as (H1 & _ & _ & _ & H5).
  split.
  - assert (reconnecting alice_linked !! apiKey alice <> Some true) as Hg
      by (vm_compute; discriminate).
    destruct (H1 Hg) as [HT _]. exact HT.
  - exact (H5 dropped_close eq_refl eq_refl).
Defined.

(* --------------------------------------------------------------------- *)
(* The session guard of the dispatcher                                    *)
(* --------------------------------------------------------------------- *)

Lemma sock_calls_emit e st :
  sock_calls (emit e st) = (sock_calls st ++ if is_sock_call e then [e] else [])%list.
Proof.
  unfold sock_calls. simpl. rewrite List.filter_app. simpl.
  by destruct (is_sock_call e).
Qed.





(** C8: when the registry has a session for the caller, sendText with a
    falsy "to" (the empty string, or no such field) answers 400 "to & text
    required" and leaves the state as it was: nothing is called on the
    socket. *)
Theorem sendText_requires_to w req st sock :
  sessions st !! apiKey (req_user req) = Some sock ->
  assoc "to" (body req) = JStr EmptyString \/ assoc "to" (body req) = JUndefined ->
  sendText w req st = (error 400 "to & text required", st).
Proof.
  intros Hs Hto. unfold sendText, handler. rewrite Hs.
  by destruct Hto as [-> | ->].
Qed.

Lemma sendText_requires_to_witness :
  sendText demo_world (alice_req [("to", JStr EmptyString); ("text", JStr "hi")]) alice_linked
    = (error 400 "to & text required", alice_linked) /\
  sendText demo_world (alice_req [("text", JStr "hi")]) alice_linked
    = (error 400 "to & text required", alice_linked).
Proof.
  assert (sessions alice_linked !! "a1b2" = Some 0) as H by (vm_compute; reflexivity).
  split.
  - exact (sendText_requires_to demo_world
             (alice_req [("to", JStr EmptyString); ("text", JStr "hi")]) alice_linked 0 H
             (or_introl eq_refl)).
  - exact (sendText_requires_to demo_world
             (alice_req [("text", JStr "hi")]) alice_linked 0 H (or_intror eq_refl)).
Defined.



(* --------------------------------------------------------------------- *)
(* Publishing to the SSE clients                                          *)
(* --------------------------------------------------------------------- *)

(** C6, as the claim states it, fails: sink 1 of alice is broken, its
    write fails during the publish, and it is still in her subscriber set
    afterwards. *)
Lemma publish_drops_failed_sink_counterexample :
  ~ (forall w k ev data st new res chunk,
       trace (sendSSE w k ev data st) = (trace st ++ new)%list ->
       In (SseWrite res chunk false) new ->
       forall clients, sseClients (sendSSE w k ev data st) !! k = Some clients ->
                       res ∉ clients).
Proof.
  intros H.
  apply (H demo_world "a1b2" "qr_cleared" (JObj []) alice_linked
           [SseWrite 1 (event_line "qr_cleared") false;
            SseWrite 2 (event_line "qr_cleared") true;
            SseWrite 2 (data_line "{}") true]
           1 (event_line "qr_cleared") eq_refl (or_introl eq_refl) [1; 2]).
  - vm_compute. reflexivity.
  - apply elem_of_cons. by left.
Qed.

(** C6, amended: a publish leaves the subscriber sets as they are, so a
    sink whose write fails stays subscribed; every sink subscribed to the
    tenant is written the event line, and the data line when its event
    line went through, whatever happens to the writes of the other sinks.
    A sink leaves the set when its request closes. *)
Theorem publish_skips_failed_sink w k ev data st clients :
  sseClients st !! k = Some clients ->
  sseClients (sendSSE w k ev data st) = sseClients st /\
  (exists new,
     trace (sendSSE w k ev data st) = (trace st ++ new)%list /\
     forall res, res ∈ clients -> written ev (sse_payload w data) new res) /\
  (forall res remaining,
     sseClients (on_sse_close k res st) !! k = Some remaining -> res ∉ remaining).
Proof.
  intros H. split; [apply quiet_sseClients, quiet_sendSSE|].
  split; [by apply sendSSE_writes|].
  intros res remaining. unfold on_sse_close. rewrite H.
  destruct (Nat.eqb _ 0); simpl.
  - by rewrite lookup_delete_eq.
  - rewrite lookup_insert_eq. intros [= <-]. unfold set_delete.
    intros Hin. apply list_elem_of_filter in Hin as [Hne _]. by apply Hne.
Qed.

Lemma publish_skips_failed_sink_witness :
  sseClients (sendSSE demo_world "a1b2" "qr_cleared" (JObj []) alice_linked)
    = sseClients alice_linked /\
  exists new,
    trace (sendSSE demo_world "a1b2" "qr_cleared" (JObj []) alice_linked)
      = (trace alice_linked ++ new)%list /\
    written "qr_cleared" "{}" new 2.
Proof.
  assert (sseClients alice_linked !! "a1b2" = Some [1; 2]) as H
    by (vm_compute; reflexivity).
  destruct (publish_skips_failed_sink demo_world "a1b2" "qr_cleared" (JObj [])
              alice_linked [1; 2] H) as (H1 & (new & E & W) & _).
  split; [exact H1|]. exists new. split; [exact E|].
  apply (W 2). apply elem_of_cons. right. apply elem_of_cons. by left.
Defined.

(* --------------------------------------------------------------------- *)
(* The logout route                                                       *)
(* --------------------------------------------------------------------- *)




(* --------------------------------------------------------------------- *)
(* Broadcast                                                              *)
(* --------------------------------------------------------------------- *)

Lemma sock_calls_saveLog uid ev st : sock_calls (saveLog uid ev st) = sock_calls st.
Proof. unfold saveLog. rewrite sock_calls_emit. simpl. by rewrite app_nil_r. Qed.

(* The loop either answers every recipient in order, or stops at the
   first rejected send. *)
Lemma broadcast_loop_runs w uid sock message tos :
  forall results st,
    (exists rs st',
       broadcast_loop w uid sock message tos results st =
         (Ok (results ++ zip_with result_entry tos rs)%list, st') /\
       length rs = length tos /\
       sock_calls st' =
         (sock_calls st ++
          zip_with (fun to r => send_to sock message to (Resolved r)) tos rs)%list) \/
    (exists sent to rest rs err st',
       tos = (sent ++ to :: rest)%list /\
       broadcast_loop w uid sock message tos results st = (Throw err, st') /\
       length rs = length sent /\
       sock_calls st' =
         (sock_calls st ++
          zip_with (fun to r => send_to sock message to (Resolved r)) sent rs ++
          [send_to sock message to (Rejected err)])%list).
Proof.
  induction tos as [|to rest IH]; intros results st.
  - left. exists [], st. simpl. by rewrite !app_nil_r.
  - assert (broadcast_loop w uid sock message (to :: rest) results st =
            match sock_call w (clock st) sock "sendMessage"
                    [to; JObj [("text", message)]] with
            | Resolved r =>
                broadcast_loop w uid sock message rest
                  (results ++ [result_entry to r])%list
                  (saveLog uid "broadcast_out"
                     (emit (send_to sock message to (Resolved r)) st))
            | Rejected err =>
                (Throw err, emit (send_to sock message to (Rejected err)) st)
            end) as ->.
    { simpl. unfold bind, call, log, modify, send_to.
      by destruct (sock_call w (clock st) sock "sendMessage" _). }
    destruct (sock_call w (clock st) sock "sendMessage" _) as [r|err] eqn:Ho.
    + set (st1 := saveLog uid "broadcast_out" _).
      assert (sock_calls st1 = (sock_calls st ++ [send_to sock message to (Resolved r)])%list)
        as Hst1.
      { unfold st1. rewrite sock_calls_saveLog, sock_calls_emit. reflexivity. }
      destruct (IH (results ++ [result_entry to r])%list st1)
        as [(rs & st' & E & L & C)|(sent & to' & rest' & rs & err & st' & D & E & L & C)].
      * left. exists (r :: rs), st'. split; [|split].
        -- rewrite E. simpl. by rewrite <- app_assoc.
        -- simpl. by rewrite L.
        -- rewrite C, Hst1. simpl. by rewrite <- app_assoc.
      * right. exists (to :: sent), to', rest', (r :: rs), err, st'.
        split; [by rewrite D|]. split; [exact E|]. split; [simpl; by rewrite L|].
        rewrite C, Hst1. simpl. by rewrite <- app_assoc.
    + right. exists [], to, rest, [], err.
      exists (emit (send_to sock message to (Rejected err)) st).
      split; [done|]. split; [reflexivity|]. split; [done|].
      rewrite sock_calls_emit. reflexivity.
Qed.



(* The run of the witness: the second recipient is rejected, the third is
   never sent to. *)
Example broadcast_stops_at_rejection :
  fst (broadcast demo_world fanout alice_linked) = error500 (JStr "not-authorized") /\
  sock_calls (snd (broadcast demo_world fanout alice_linked)) =
    [send_to 0 (JStr "hi") (JStr "1@s.whatsapp.net") (Resolved (JStr "sent"));
     send_to 0 (JStr "hi") (JStr "bad@s.whatsapp.net") (Rejected (JStr "not-authorized"))].
Proof. split; vm_compute; reflexivity. Qed.

(* ===================================================================== *)
(* Further properties of the controller                                   *)
(* ===================================================================== *)

(* --------------------------------------------------------------------- *)
(* The dispatcher as a whole                                              *)
(* --------------------------------------------------------------------- *)

Ltac unfold_routes :=
  unfold dispatch, sendText, sendMedia, sendButtons, sendTemplate, broadcast, getChats,
    getMessages, markRead, presence, block, unblock, block_status, createGroup,
    groupAdd, group_many, groupRemove, groupPromote, groupDemote, group_one,
    getContacts, downloadMedia, updateProfileName, updateProfilePicture.

Ltac unfold_monad :=
  unfold handler, bind, ret, throw, call, log, modify, fetch, try_catch, gets, write_file.


(** X2: every command other than broadcast calls the socket at most once:
    a rejected call is answered, never retried. *)
Theorem commands_call_socket_at_most_once w c req st :
  c <> Broadcast ->
  sock_calls (snd (dispatch w c req st)) = sock_calls st \/
  exists s method args o,
    sock_calls (snd (dispatch w c req st)) =
      (sock_calls st ++ [SockCall s method args o])%list.
Proof.
  intros Hc. destruct c; try done; unfold_routes; unfold_monad;
    repeat case_match; simplify_eq; simpl;
    unfold sock_calls, saveLog, emit; simpl; rewrite ?List.filter_app; simpl;
    rewrite ?app_nil_r; eauto 6.
Qed.

Lemma commands_call_socket_at_most_once_witness :
  sock_calls (snd (dispatch demo_world SendText hello alice_linked)) =
    sock_calls alice_linked \/
  exists s method args o,
    sock_calls (snd (dispatch demo_world SendText hello alice_linked)) =
      (sock_calls alice_linked ++ [SockCall s method args o])%list.
Proof.
  assert (SendText <> Broadcast) as H by discriminate.
  exact (commands_call_socket_at_most_once demo_world SendText hello alice_linked H).
Defined.

(** X3: every command other than broadcast writes at most one audit entry,
    and writes it only when it answers success: a request answered 400 or
    500 leaves no entry. *)
Theorem commands_log_only_success w c req st :
  c <> Broadcast ->
  logs (snd (dispatch w c req st)) = logs st \/
  exists uid ev extra,
    logs (snd (dispatch w c req st)) = (logs st ++ [LogCreate uid ev])%list /\
    fst (dispatch w c req st) = success extra.
Proof.
  intros Hc. destruct c; try done; unfold_routes; unfold_monad;
    repeat case_match; simplify_eq; simpl;
    unfold logs, saveLog, emit; simpl; rewrite ?List.filter_app; simpl;
    rewrite ?app_nil_r; eauto 8.
Qed.

Lemma commands_log_only_success_witness :
  logs (snd (dispatch demo_world SendText hello alice_linked)) = logs alice_linked \/
  exists uid ev extra,
    logs (snd (dispatch demo_world SendText hello alice_linked)) =
      (logs alice_linked ++ [LogCreate uid ev])%list /\
    fst (dispatch demo_world SendText hello alice_linked) = success extra.
Proof.
  assert (SendText <> Broadcast) as H by discriminate.
  exact (commands_log_only_success demo_world SendText hello alice_linked H).
Defined.

(** X4: a command that answers with status 400 has done nothing: every
    validation of a request happens before the first effect, so the state,
    trace included, is the one the command started from. *)
Theorem rejected_request_changes_nothing w c req st payload :
  fst (dispatch w c req st) = Json 400 payload ->
  snd (dispatch w c req st) = st.
Proof.
  destruct c; unfold_routes; unfold_monad;
    unfold not_connected, error, success, error500;
    intros H; repeat case_match; simplify_eq; simpl in *; done.
Qed.

Lemma rejected_request_changes_nothing_witness :
  snd (dispatch demo_world SendMedia (alice_req [("to", JStr "628@s.whatsapp.net")])
         alice_linked) = alice_linked.
Proof.
  assert (fst (dispatch demo_world SendMedia (alice_req [("to", JStr "628@s.whatsapp.net")])
                 alice_linked)
          = Json 400 (JObj [("error", JStr "url or base64 required")])) as H
    by (vm_compute; reflexivity).
  exact (rejected_request_changes_nothing demo_world SendMedia
           (alice_req [("to", JStr "628@s.whatsapp.net")]) alice_linked _ H).
Defined.

(* --------------------------------------------------------------------- *)
(* Broadcast: edges and audit entries                                     *)
(* --------------------------------------------------------------------- *)

(** X5: with a session in the registry, broadcast answers 400 "numbers
    array & message required" and does nothing when numbers is not an
    array or message is falsy; with an empty array and a truthy message it
    answers success with no results and does nothing. *)
Theorem broadcast_edges w req st sock :
  sessions st !! apiKey (req_user req) = Some sock ->
  ((forall tos, assoc "numbers" (body req) <> JArr tos) \/
   truthy (assoc "message" (body req)) = false ->
   broadcast w req st = (error 400 "numbers array & message required", st)) /\
  (assoc "numbers" (body req) = JArr [] ->
   truthy (assoc "message" (body req)) = true ->
   broadcast w req st = (success [("results", JArr [])], st)).
Proof.
  intros Hs. split.
  - intros H. unfold broadcast, handler. rewrite Hs.
    destruct (assoc "numbers" (body req)) eqn:Hn; try done.
    destruct H as [H|H]; [by destruct (H items) | by rewrite H].
  - intros Hn Hm. unfold broadcast, handler. by rewrite Hs, Hn, Hm.
Qed.

Lemma broadcast_edges_witness :
  broadcast demo_world (alice_req [("numbers", JArr []); ("message", JStr "hi")])
    alice_linked = (success [("results", JArr [])], alice_linked) /\
  broadcast demo_world (alice_req [("numbers", JStr "628"); ("message", JStr "hi")])
    alice_linked = (error 400 "numbers array & message required", alice_linked).
Proof.
  assert (sessions alice_linked !! "a1b2" = Some 0) as H by (vm_compute; reflexivity).
  split.
  - destruct (broadcast_edges demo_world
                (alice_req [("numbers", JArr []); ("message", JStr "hi")])
                alice_linked 0 H) as [_ H2].
    exact (H2 eq_refl eq_refl).
  - destruct (broadcast_edges demo_world
                (alice_req [("numbers", JStr "628"); ("message", JStr "hi")])
                alice_linked 0 H) as [H1 _].
    apply H1. left. intros tos E. discriminate E.
Defined.

Lemma logs_emit e st :
  logs (emit e st) = (logs st ++ if is_log e then [e] else [])%list.
Proof.
  unfold logs. simpl. rewrite List.filter_app. simpl. by destruct (is_log e).
Qed.

Lemma logs_sent_and_logged uid sock message (tos rs : list JsVal) :
  length rs = length tos ->
  List.filter is_log (concat (zip_with (sent_and_logged uid sock message) tos rs)) =
  replicate (length tos) (LogCreate uid "broadcast_out").
Proof.
  revert rs. induction tos as [|to tos IH]; intros [|r rs] L; try done.
  simpl. f_equal. apply IH. simpl in L. lia.
Qed.

(* The effects of the loop: each resolved send is followed by its audit
   entry before the next send is made, and a rejected send is the last
   effect. *)
Lemma broadcast_loop_trace w uid sock message tos :
  forall results st,
    (exists rs st',
       broadcast_loop w uid sock message tos results st =
         (Ok (results ++ zip_with result_entry tos rs)%list, st') /\
       length rs = length tos /\
       trace st' =
         (trace st ++ concat (zip_with (sent_and_logged uid sock message) tos rs))%list) \/
    (exists sent to rest rs err st',
       tos = (sent ++ to :: rest)%list /\
       broadcast_loop w uid sock message tos results st = (Throw err, st') /\
       length rs = length sent /\
       trace st' =
         (trace st ++ concat (zip_with (sent_and_logged uid sock message) sent rs) ++
          [send_to sock message to (Rejected err)])%list).
Proof.
  induction tos as [|to rest IH]; intros results st.
  - left. exists [], st. simpl. by rewrite !app_nil_r.
  - assert (broadcast_loop w uid sock message (to :: rest) results st =
            match sock_call w (clock st) sock "sendMessage"
                    [to; JObj [("text", message)]] with
            | Resolved r =>
                broadcast_loop w uid sock message rest
                  (results ++ [result_entry to r])%list
                  (saveLog uid "broadcast_out"
                     (emit (send_to sock message to (Resolved r)) st))
            | Rejected err =>
                (Throw err, emit (send_to sock message to (Rejected err)) st)
            end) as ->.
    { simpl. unfold bind, call, log, modify, send_to.
      by destruct (sock_call w (clock st) sock "sendMessage" _). }
    destruct (sock_call w (clock st) sock "sendMessage" _) as [r|err] eqn:Ho.
    + set (st1 := saveLog uid "broadcast_out" _).
      assert (trace st1 = (trace st ++ sent_and_logged uid sock message to r)%list) as Hst1.
      { unfold st1, saveLog, sent_and_logged. simpl. by rewrite <- app_assoc. }
      destruct (IH (results ++ [result_entry to r])%list st1)
        as [(rs & st' & E & L & C)|(sent & to' & rest' & rs & err & st' & D & E & L & C)].
      * left. exists (r :: rs), st'. split; [|split].
        -- rewrite E. simpl. by rewrite <- app_assoc.
        -- simpl. by rewrite L.
        -- rewrite C, Hst1. simpl. by rewrite <- app_assoc.
      * right. exists (to :: sent), to', rest', (r :: rs), err, st'.
        split; [by rewrite D|]. split; [exact E|]. split; [simpl; by rewrite L|].
        rewrite C, Hst1. simpl. by rewrite <- app_assoc.
    + right. exists [], to, rest, [], err.
      exists (emit (send_to sock message to (Rejected err)) st).
      split; [done|]. split; [reflexivity|]. split; [done|]. reflexivity.
Qed.

(** X6: broadcast writes one "broadcast_out" audit entry right after each
    send that resolved, before the next send is made.  When every send
    resolves there is one entry per recipient.  When a send is rejected
    the answer is the 500 error and the rejected send is the last effect,
    yet the recipients before it were sent to and their entries stay in
    the log: one entry per send that resolved, none for the rejected
    one. *)
Theorem broadcast_logs_each_send w req st sock tos :
  sessions st !! apiKey (req_user req) = Some sock ->
  assoc "numbers" (body req) = JArr tos ->
  truthy (assoc "message" (body req)) = true ->
  (exists rs,
     length rs = length tos /\
     fst (broadcast w req st) = success [("results", JArr (zip_with result_entry tos rs))] /\
     trace (snd (broadcast w req st)) =
       (trace st ++
        concat (zip_with (sent_and_logged (user_id (req_user req)) sock
                            (assoc "message" (body req))) tos rs))%list /\
     logs (snd (broadcast w req st)) =
       (logs st ++
        replicate (length tos) (LogCreate (user_id (req_user req)) "broadcast_out"))%list) \/
  (exists sent to rest rs err,
     tos = (sent ++ to :: rest)%list /\
     length rs = length sent /\
     fst (broadcast w req st) = error500 err /\
     trace (snd (broadcast w req st)) =
       (trace st ++
        concat (zip_with (sent_and_logged (user_id (req_user req)) sock
                            (assoc "message" (body req))) sent rs) ++
        [send_to sock (assoc "message" (body req)) to (Rejected err)])%list /\
     logs (snd (broadcast w req st)) =
       (logs st ++
        replicate (length sent) (LogCreate (user_id (req_user req)) "broadcast_out"))%list).
Proof.
  intros Hs Hn Hm. unfold broadcast, handler. rewrite Hs, Hn, Hm. simpl.
  unfold bind.
  destruct (broadcast_loop_trace w (user_id (req_user req)) sock
              (assoc "message" (body req)) tos [] st)
    as [(rs & st' & E & L & C)|(sent & to & rest & rs & err & st' & D & E & L & C)].
  - left. exists rs. rewrite E. simpl. split; [done|]. split; [done|]. split; [done|].
    unfold logs. rewrite C, List.filter_app. by rewrite logs_sent_and_logged.
  - right. exists sent, to, rest, rs, err. rewrite E. simpl.
    split; [done|]. split; [done|]. split; [done|]. split; [done|].
    unfold logs. rewrite C, !List.filter_app. rewrite logs_sent_and_logged by done.
    simpl. by rewrite app_nil_r.
Qed.

Lemma broadcast_logs_each_send_witness :
  (exists rs,
     length rs = 3 /\
     fst (broadcast demo_world fanout alice_linked) =
       success [("results",
         JArr (zip_with result_entry
           [JStr "1@s.whatsapp.net"; JStr "bad@s.whatsapp.net"; JStr "3@s.whatsapp.net"]
           rs))] /\
     trace (snd (broadcast demo_world fanout alice_linked)) =
       (trace alice_linked ++
        concat (zip_with (sent_and_logged 7 0 (JStr "hi"))
          [JStr "1@s.whatsapp.net"; JStr "bad@s.whatsapp.net"; JStr "3@s.whatsapp.net"]
          rs))%list /\
     logs (snd (broadcast demo_world fanout alice_linked)) =
       (logs alice_linked ++ replicate 3 (LogCreate 7 "broadcast_out"))%list) \/
  (exists sent to rest rs err,
     [JStr "1@s.whatsapp.net"; JStr "bad@s.whatsapp.net"; JStr "3@s.whatsapp.net"]
       = (sent ++ to :: rest)%list /\
     length rs = length sent /\
     fst (broadcast demo_world fanout alice_linked) = error500 err /\
     trace (snd (broadcast demo_world fanout alice_linked)) =
       (trace alice_linked ++
        concat (zip_with (sent_and_logged 7 0 (JStr "hi")) sent rs) ++
        [send_to 0 (JStr "hi") to (Rejected err)])%list /\
     logs (snd (broadcast demo_world fanout alice_linked)) =
       (logs alice_linked ++ replicate (length sent) (LogCreate 7 "broadcast_out"))%list).
Proof.
  assert (sessions alice_linked !! "a1b2" = Some 0) as H by (vm_compute; reflexivity).
  exact (broadcast_logs_each_send demo_world fanout alice_linked 0
           [JStr "1@s.whatsapp.net"; JStr "bad@s.whatsapp.net"; JStr "3@s.whatsapp.net"]
           H eq_refl eq_refl).
Defined.

(* --------------------------------------------------------------------- *)
(* Publishing: who is written to                                          *)
(* --------------------------------------------------------------------- *)

Lemma data_line_not_event_line payload ev :
  String.eqb (data_line payload) (event_line ev) = false.
Proof. reflexivity. Qed.

Lemma event_sinks_event ev res ok new :
  event_sinks ev (SseWrite res (event_line ev) ok :: new) = res :: event_sinks ev new.
Proof. unfold event_sinks. cbn [omap list_omap]. by rewrite String.eqb_refl. Qed.

Lemma event_sinks_data ev payload res ok new :
  event_sinks ev (SseWrite res (data_line payload) ok :: new) = event_sinks ev new.
Proof.
  unfold event_sinks. cbn [omap list_omap]. by rewrite data_line_not_event_line.
Qed.

Lemma sse_write_all_targets w ev payload clients :
  forall st, exists new,
    trace (sse_write_all w ev payload clients st) = (trace st ++ new)%list /\
    event_sinks ev new = clients /\
    Forall (fun e => exists res chunk ok, e = SseWrite res chunk ok /\ res ∈ clients) new.
Proof.
  induction clients as [|r rest IH]; intros st; simpl.
  - exists []. split; [by rewrite app_nil_r|]. split; [done | constructor].
  - destruct (IH (sse_write w ev payload r st)) as (new & E & S & F).
    assert (Forall (fun e => exists res chunk ok,
                      e = SseWrite res chunk ok /\ res ∈ r :: rest) new) as F'.
    { eapply Forall_impl; [exact F|]. intros e (res & chunk & ok & -> & Hin).
      exists res, chunk, ok. split; [done|]. apply elem_of_cons. by right. }
    assert (r ∈ r :: rest) as Hr by (apply elem_of_cons; by left).
    unfold sse_write in *. cbv zeta in *.
    destruct (write_ok w (clock st) r (event_line ev)) eqn:Hok.
    + eexists (_ :: _ :: new). split; [rewrite E; simpl; by rewrite <- !app_assoc|].
      split.
      * by rewrite event_sinks_event, event_sinks_data, S.
      * constructor; [by eexists _, _, _|]. constructor; [by eexists _, _, _|]. exact F'.
    + eexists (_ :: new). split; [rewrite E; simpl; by rewrite <- !app_assoc|].
      split.
      * by rewrite event_sinks_event, S.
      * constructor; [by eexists _, _, _|]. exact F'.
Qed.

(** X7: a publish to a tenant without subscribers does nothing.  Otherwise
    the sinks that are written the event line are exactly the tenant's
    subscribers, each once and in the order they subscribed, and nothing
    is written to any other sink. *)
Theorem publish_reaches_exactly_subscribers w k ev data st :
  (sseClients st !! k = None -> sendSSE w k ev data st = st) /\
  (forall clients,
     sseClients st !! k = Some clients ->
     exists new,
       trace (sendSSE w k ev data st) = (trace st ++ new)%list /\
       event_sinks ev new = clients /\
       Forall (fun e => exists res chunk ok,
                 e = SseWrite res chunk ok /\ res ∈ clients) new).
Proof.
  split.
  - intros H. unfold sendSSE. by rewrite H.
  - intros clients H. unfold sendSSE. rewrite H. apply sse_write_all_targets.
Qed.

Lemma publish_reaches_exactly_subscribers_witness :
  exists new,
    trace (sendSSE demo_world "a1b2" "connected" (JObj []) alice_linked) =
      (trace alice_linked ++ new)%list /\
    event_sinks "connected" new = [1; 2] /\
    Forall (fun e => exists res chunk ok,
              e = SseWrite res chunk ok /\ res ∈ [1; 2]) new.
Proof.
  assert (sseClients alice_linked !! "a1b2" = Some [1; 2]) as H
    by (vm_compute; reflexivity).
  destruct (publish_reaches_exactly_subscribers demo_world "a1b2" "connected"
              (JObj []) alice_linked) as [_ Hp].
  exact (Hp [1; 2] H).
Defined.

(* --------------------------------------------------------------------- *)
(* messages.upsert: read receipts                                         *)
(* --------------------------------------------------------------------- *)

Lemma sock_calls_sse_write_all w ev payload clients :
  forall st, sock_calls (sse_write_all w ev payload clients st) = sock_calls st.
Proof.
  induction clients as [|r rest IH]; intros st; simpl; [done|].
  rewrite IH. unfold sse_write. cbv zeta.
  destruct (write_ok w (clock st) r _); rewrite !sock_calls_emit; simpl;
    by rewrite !app_nil_r.
Qed.

Lemma sock_calls_sendSSE w k ev data st :
  sock_calls (sendSSE w k ev data st) = sock_calls st.
Proof.
  unfold sendSSE. destruct (sseClients st !! k); [|done].
  apply sock_calls_sse_write_all.
Qed.

Lemma read_receipt_calls w sock msg st :
  nullish msg = false ->
  exists st',
    read_receipt w sock msg st = (Ok tt, st') /\
    trace st' =
    (trace st ++
     if needs_receipt msg
     then [SockCall sock "sendReadReceipt" (receipt_args msg)
             (sock_call w (clock st) sock "sendReadReceipt" (receipt_args msg))]
     else [])%list.
Proof.
  intros Hn. unfold read_receipt, needs_receipt. rewrite Hn. cbv zeta.
  fold (receipt_args msg).
  destruct (truthy (get_field msg "key")); simpl;
    [|eexists; split; [reflexivity | by rewrite app_nil_r]].
  destruct (strict_eq_str _ "status@broadcast"); simpl;
    [eexists; split; [reflexivity | by rewrite app_nil_r]|].
  eexists. split; [reflexivity|]. unfold call.
  by destruct (sock_call w (clock st) sock "sendReadReceipt" (receipt_args msg)).
Qed.

(* The loop over messages none of which is null or undefined: every
   message is looked at, whatever the receipts answer. *)
Lemma receipts_calls w sock msgs :
  Forall (fun msg => nullish msg = false) msgs ->
  forall st, exists outcomes st',
    read_receipts w sock msgs st = (Ok tt, st') /\
    length outcomes = length (List.filter needs_receipt msgs) /\
    trace st' =
      (trace st ++
       zip_with (fun msg o => SockCall sock "sendReadReceipt" (receipt_args msg) o)
         (List.filter needs_receipt msgs) outcomes)%list.
Proof.
  induction 1 as [|msg msgs Hn _ IH]; intros st; simpl.
  - exists [], st. by rewrite app_nil_r.
  - destruct (read_receipt_calls w sock msg st Hn) as (st1 & E1 & T1).
    unfold bind. rewrite E1.
    destruct (IH st1) as (os & st' & E & L & C).
    rewrite E. rewrite T1 in C.
    destruct (needs_receipt msg).
    + eexists (_ :: os), st'. split; [done|]. split; [simpl; by rewrite L|].
      rewrite C. simpl. by rewrite <- app_assoc.
    + exists os, st'. split; [done|]. split; [done|]. rewrite C. by rewrite app_nil_r.
Qed.

(* The loop stops at the first message that is null or undefined. *)
Lemma receipts_stop w sock good bad rest :
  Forall (fun msg => nullish msg = false) good -> nullish bad = true ->
  forall st, exists outcomes st',
    read_receipts w sock (good ++ bad :: rest) st = (Throw type_error, st') /\
    length outcomes = length (List.filter needs_receipt good) /\
    trace st' =
      (trace st ++
       zip_with (fun msg o => SockCall sock "sendReadReceipt" (receipt_args msg) o)
         (List.filter needs_receipt good) outcomes)%list.
Proof.
  intros Hgood Hbad. induction Hgood as [|msg msgs Hn _ IH]; intros st; simpl.
  - exists [], st. unfold bind, read_receipt. rewrite Hbad. by rewrite app_nil_r.
  - destruct (read_receipt_calls w sock msg st Hn) as (st1 & E1 & T1).
    unfold bind at 1. rewrite E1.
    destruct (IH st1) as (os & st' & E & L & C).
    rewrite E. rewrite T1 in C.
    destruct (needs_receipt msg).
    + eexists (_ :: os), st'. split; [done|]. split; [simpl; by rewrite L|].
      rewrite C. simpl. by rewrite <- app_assoc.
    + exists os, st'. split; [done|]. split; [done|]. rewrite C. by rewrite app_nil_r.
Qed.

Lemma sock_calls_zip_receipts sock (msgs : list JsVal) (outcomes : list Outcome) :
  List.filter is_sock_call
    (zip_with (fun msg o => SockCall sock "sendReadReceipt" (receipt_args msg) o)
       msgs outcomes) =
  zip_with (fun msg o => SockCall sock "sendReadReceipt" (receipt_args msg) o)
    msgs outcomes.
Proof.
  revert outcomes. induction msgs as [|msg msgs IH]; intros [|o os]; try done.
  simpl. by rewrite IH.
Qed.

(** X8: for a messages.upsert of type "notify" whose messages are an
    array without null or undefined elements, the socket is asked for one
    read receipt per message that has a key and is not from
    status@broadcast, in the order of the array and whatever the earlier
    receipts answered: a rejected receipt stops nothing; afterwards every
    subscriber of the tenant is written the message event.  When an
    element of the array is null or undefined, reading its key throws: the
    messages before it are acknowledged, those after it are not, and
    nothing is published.  For any other type no receipt is sent and the
    event is published.  An event that is itself null or undefined is
    logged and nothing else happens. *)
Theorem upsert_acknowledges_each_message w user sock m st :
  (forall msgs,
     get_field m "type" = JStr "notify" ->
     get_field m "messages" = JArr msgs ->
     Forall (fun msg => nullish msg = false) msgs ->
     exists outcomes,
       length outcomes = length (List.filter needs_receipt msgs) /\
       sock_calls (on_messages_upsert w user sock m st) =
         (sock_calls st ++
          zip_with (fun msg o => SockCall sock "sendReadReceipt" (receipt_args msg) o)
            (List.filter needs_receipt msgs) outcomes)%list) /\
  (forall good bad rest,
     get_field m "type" = JStr "notify" ->
     get_field m "messages" = JArr (good ++ bad :: rest) ->
     Forall (fun msg => nullish msg = false) good -> nullish bad = true ->
     exists outcomes,
       length outcomes = length (List.filter needs_receipt good) /\
       trace (on_messages_upsert w user sock m st) =
         (trace st ++
          LogCreate (user_id user) "message_in" ::
          zip_with (fun msg o => SockCall sock "sendReadReceipt" (receipt_args msg) o)
            (List.filter needs_receipt good) outcomes)%list) /\
  (strict_eq_str (get_field m "type") "notify" = false ->
   sock_calls (on_messages_upsert w user sock m st) = sock_calls st) /\
  (nullish m = true ->
   on_messages_upsert w user sock m st = saveLog (user_id user) "message_in" st) /\
  (forall clients,
     sseClients st !! apiKey user = Some clients ->
     nullish m = false ->
     (strict_eq_str (get_field m "type") "notify" = false \/
      exists msgs, get_field m "messages" = JArr msgs /\
                   Forall (fun msg => nullish msg = false) msgs) ->
     exists new,
       trace (on_messages_upsert w user sock m st) = (trace st ++ new)%list /\
       forall res, res ∈ clients ->
         written "message" (sse_payload w (JObj [("event", m)])) new res).
Proof.
  assert (forall t, get_field m "type" = JStr t -> nullish m = false) as Hobj
    by (intros t; by destruct m).
  split; [|split; [|split; [|split]]].
  - intros msgs Ht Hm Hall. unfold on_messages_upsert. cbv zeta.
    rewrite (Hobj _ Ht), Ht, Hm. simpl.
    destruct (receipts_calls w sock msgs Hall (saveLog (user_id user) "message_in" st))
      as (os & st' & E & L & C).
    rewrite E, sock_calls_sendSSE. exists os. split; [done|].
    unfold sock_calls at 1. rewrite C, List.filter_app, sock_calls_zip_receipts.
    fold (sock_calls (saveLog (user_id user) "message_in" st)).
    by rewrite sock_calls_saveLog.
  - intros good bad rest Ht Hm Hgood Hbad. unfold on_messages_upsert. cbv zeta.
    rewrite (Hobj _ Ht), Ht, Hm. simpl.
    destruct (receipts_stop w sock good bad rest Hgood Hbad
                (saveLog (user_id user) "message_in" st))
      as (os & st' & E & L & C).
    rewrite E. exists os. split; [done|]. rewrite C. simpl. by rewrite <- app_assoc.
  - intros Ht. unfold on_messages_upsert. cbv zeta. rewrite Ht.
    destruct (nullish m); [apply sock_calls_saveLog|].
    by rewrite sock_calls_sendSSE, sock_calls_saveLog.
  - intros Hn. unfold on_messages_upsert. cbv zeta. by rewrite Hn.
  - intros clients Hc Hn Hcase. unfold on_messages_upsert. cbv zeta. rewrite Hn.
    assert (forall s, quiet st s ->
              exists new,
                trace (sendSSE w (apiKey user) "message" (JObj [("event", m)]) s) =
                  (trace st ++ new)%list /\
                forall res, res ∈ clients ->
                  written "message" (sse_payload w (JObj [("event", m)])) new res) as Hpush.
    { intros s Hq. pose proof (quiet_sseClients _ _ Hq) as Hsse.
      destruct Hq as [_ (pre & Epre & _)].
      assert (sseClients s !! apiKey user = Some clients) as Hc' by (by rewrite Hsse).
      destruct (sendSSE_writes w (apiKey user) "message" (JObj [("event", m)]) s
                  clients Hc') as (new & E & W).
      exists (pre ++ new)%list. split; [by rewrite E, Epre, <- app_assoc|].
      intros res Hin.
      pose proof (written_app "message" (sse_payload w (JObj [("event", m)]))
                    pre new [] res (W res Hin)) as Hw.
      by rewrite app_nil_r in Hw. }
    destruct Hcase as [Ht|(msgs & Hm & Hall)].
    + rewrite Ht. apply Hpush, quiet_saveLog.
    + destruct (strict_eq_str (get_field m "type") "notify");
        [|apply Hpush, quiet_saveLog].
      rewrite Hm. simpl.
      destruct (receipts_calls w sock msgs Hall (saveLog (user_id user) "message_in" st))
        as (os & st' & E & _ & _).
      pose proof (quiet_receipts w sock msgs (saveLog (user_id user) "message_in" st))
        as Hq.
      rewrite E in Hq |- *. simpl in Hq. apply Hpush.
      eapply quiet_trans; [apply quiet_saveLog | exact Hq].
Qed.

Lemma upsert_acknowledges_each_message_witness :
  (exists outcomes,
     length outcomes = 1 /\
     sock_calls (on_messages_upsert demo_world alice 0 incoming alice_linked) =
       (sock_calls alice_linked ++
        zip_with (fun msg o => SockCall 0 "sendReadReceipt" (receipt_args msg) o)
          [JObj [("key", JObj [("remoteJid", JStr "1@s.whatsapp.net");
                               ("id", JStr "A")])]]
          outcomes)%list) /\
  (exists outcomes,
     length outcomes = 1 /\
     trace (on_messages_upsert demo_world alice 0 incoming_null alice_linked) =
       (trace alice_linked ++
        LogCreate 7 "message_in" ::
        zip_with (fun msg o => SockCall 0 "sendReadReceipt" (receipt_args msg) o)
          [JObj [("key", JObj [("remoteJid", JStr "1@s.whatsapp.net");
                               ("id", JStr "A")])]]
          outcomes)%list).
Proof.
  destruct (upsert_acknowledges_each_message demo_world alice 0 incoming alice_linked)
    as [H _].
  destruct (upsert_acknowledges_each_message demo_world alice 0 incoming_null alice_linked)
    as (_ & H' & _).
  split.
  - refine (H _ eq_refl eq_refl _). by repeat constructor.
  - refine (H' [_] JNull [_] eq_refl eq_refl _ eq_refl). by repeat constructor.
Defined.

(* --------------------------------------------------------------------- *)
(* Subscribing and unsubscribing                                          *)
(* --------------------------------------------------------------------- *)

Lemma qrSSE_sseClients w k res st :
  k <> EmptyString ->
  sseClients (snd (qrSSE w k res st)) =
  <[k := set_add res (default [] (sseClients st !! k))]> (sseClients st).
Proof.
  intros Hk. unfold qrSSE.
  assert (truthy (JStr k) = true) as ->.
  { simpl. apply negb_true_iff. by apply String.eqb_neq. }
  cbv zeta. simpl negb. cbv iota.
  assert (sseClients
            (set_sseClients (alter (set_add res) k)
               match sseClients st !! k with
               | Some _ => st
               | None => set_sseClients (insert k []) st
               end) =
          <[k := set_add res (default [] (sseClients st !! k))]> (sseClients st)) as H.
  { apply map_eq. intros k'. destruct (sseClients st !! k) as [c|] eqn:Hc; simpl.
    - rewrite lookup_alter. destruct (decide (k = k')) as [<-|Hne].
      + by rewrite lookup_insert_eq, Hc.
      + by rewrite lookup_insert_ne.
    - rewrite lookup_alter. destruct (decide (k = k')) as [<-|Hne].
      + by rewrite !lookup_insert_eq.
      + by rewrite !lookup_insert_ne. }
  destruct (write_ok w _ res _); [destruct (write_ok w _ res _)|]; exact H.
Qed.

Lemma set_add_elem res clients : res ∈ set_add res clients.
Proof.
  unfold set_add. destruct (decide (res ∈ clients)); [done|].
  apply elem_of_app. right. apply elem_of_cons. by left.
Qed.

Lemma set_add_NoDup res clients : NoDup clients -> NoDup (set_add res clients).
Proof.
  intros H. unfold set_add. destruct (decide (res ∈ clients)); [done|].
  apply NoDup_app. split; [done|]. split; [|apply NoDup_singleton].
  intros x Hx Hx'. apply elem_of_cons in Hx' as [->|Hx']; [done|].
  by apply elem_of_nil in Hx'.
Qed.

Lemma set_add_nonempty res clients : set_add res clients <> [].
Proof.
  intros H. pose proof (set_add_elem res clients) as Hin. rewrite H in Hin.
  by apply elem_of_nil in Hin.
Qed.

Lemma set_delete_absent res clients : res ∉ clients -> set_delete res clients = clients.
Proof.
  intros H. unfold set_delete. induction clients as [|r rest IH]; [done|].
  rewrite filter_cons. destruct (decide (r ≠ res)) as [Hne|He].
  - f_equal. apply IH. intros Hin. apply H. apply elem_of_cons. by right.
  - exfalso. apply H. apply elem_of_cons. left. symmetry. by apply dec_stable.
Qed.

Lemma set_delete_added res clients :
  res ∉ clients -> set_delete res (set_add res clients) = clients.
Proof.
  intros H. unfold set_add. destruct (decide (res ∈ clients)); [done|].
  unfold set_delete. rewrite filter_app, filter_cons. fold (set_delete res clients).
  rewrite set_delete_absent by done.
  destruct (decide (res ≠ res)); [done|]. rewrite filter_nil. by rewrite app_nil_r.
Qed.

(** X9: qrSSE without an api key answers 401 and registers nothing.  With
    a key, the sink is added to the tenant's subscriber set (created if
    the tenant had none), the sets of other tenants are untouched, the
    sink is first written the connected acknowledgment, and a sink that is
    already subscribed is not added twice. *)
Theorem subscribe_adds_sink w k res st :
  qrSSE w EmptyString res st =
    (Some (error 401 "x-api-key header or ?apiKey required"), st) /\
  (k <> EmptyString ->
   sseClients (snd (qrSSE w k res st)) =
     <[k := set_add res (default [] (sseClients st !! k))]> (sseClients st) /\
   res ∈ set_add res (default [] (sseClients st !! k)) /\
   (res ∈ default [] (sseClients st !! k) ->
    sseClients (snd (qrSSE w k res st)) = sseClients st) /\
   exists ok rest,
     trace (snd (qrSSE w k res st)) =
       (trace st ++ SseWrite res (event_line "connected") ok :: rest)%list).
Proof.
  split; [reflexivity|]. intros Hk.
  split; [by apply qrSSE_sseClients|]. split; [apply set_add_elem|]. split.
  - intros Hin. rewrite qrSSE_sseClients by done.
    destruct (sseClients st !! k) as [c|] eqn:Hc; simpl in *.
    + unfold set_add. destruct (decide (res ∈ c)); [|done]. by apply insert_id.
    + by apply elem_of_nil in Hin.
  - unfold qrSSE.
    assert (truthy (JStr k) = true) as ->.
    { simpl. apply negb_true_iff. by apply String.eqb_neq. }
    cbv zeta. simpl negb. cbv iota.
    set (st2 := set_sseClients (alter (set_add res) k) _).
    assert (trace st2 = trace st) as Ht
      by (unfold st2; by destruct (sseClients st !! k)).
    clearbody st2.
    destruct (write_ok w (clock st2) res _);
      [match goal with |- context [if ?b then _ else _] => destruct b end|];
      simpl; rewrite Ht.
    + eexists true, [_]. by rewrite <- app_assoc.
    + eexists true, [_]. by rewrite <- app_assoc.
    + by eexists false, [].
Qed.

Lemma subscribe_adds_sink_witness :
  sseClients (snd (qrSSE demo_world "a1b2" 3 alice_linked)) =
    <[ "a1b2" := set_add 3 (default [] (sseClients alice_linked !! "a1b2"))]>
      (sseClients alice_linked) /\
  3 ∈ set_add 3 (default [] (sseClients alice_linked !! "a1b2")).
Proof.
  assert ("a1b2" <> EmptyString) as H by discriminate.
  destruct (subscribe_adds_sink demo_world "a1b2" 3 alice_linked) as [_ Hs].
  destruct (Hs H) as (H1 & H2 & _). exact (conj H1 H2).
Defined.

(* Steps other than subscribing and closing leave the subscriber sets. *)
Lemma sseClients_createSocketForUser w user st :
  sseClients (snd (createSocketForUser w user st)) = sseClients st.
Proof.
  rewrite createSocketForUser_eq. cbv zeta.
  destruct (sessions st !! apiKey user); [done|].
  assert (sseClients (ensureSessionDir (apiKey user) st) = sseClients st) as H.
  { unfold ensureSessionDir. by destruct (session_dirs st !! apiKey user). }
  by destruct (open_error w _ (apiKey user)).
Qed.

Lemma sseClients_removal w k st :
  sseClients (rmSessionDir w k (without_session w k st)) = sseClients st.
Proof.
  destruct (without_session_others w k st) as (_ & H & _).
  destruct (rmSessionDir_spec w k (without_session w k st)) as (_ & _ & H' & _).
  congruence.
Qed.

Lemma exec_sseClients w l st :
  match l with
  | LSubscribe _ _ | LSseClose _ _ => True
  | _ => sseClients (exec w l st) = sseClients st
  end.
Proof.
  destruct l; unfold exec; try exact I.
  - unfold connect, handler, bind, ret.
    pose proof (sseClients_createSocketForUser w (req_user req) st) as H.
    by destruct (createSocketForUser w (req_user req) st) as [[?|?] ?].
  - done.
  - apply quiet_sseClients, dispatch_quiet.
  - rewrite logout_eq. simpl.
    rewrite (quiet_sseClients _ _ (quiet_sendSSE _ _ _ _ _)). apply sseClients_removal.
  - done.
  - change (on_connection_update w user update st)
      with (on_close w user update (before_close w user update st)).
    pose proof (quiet_sseClients _ _ (quiet_before_close w user update st)) as Hq.
    unfold on_close. destruct (strict_eq_str _ "close"); [|done].
    destruct (strict_eq_num _ _).
    + rewrite cleanup_logged_out_eq.
      rewrite (quiet_sseClients _ _ (quiet_sendSSE _ _ _ _ _)), sseClients_removal.
      simpl. exact Hq.
    + unfold schedule_reconnect.
      by destruct (reconnecting _ !! apiKey user) as [[]|].
  - unfold on_creds_update. by destruct (session_dirs st !! k).
  - apply quiet_sseClients, quiet_on_messages_upsert.
  - done.
  - unfold reconnect_callback. cbv zeta. simpl.
    destruct (findOne w _ k); [|done].
    by rewrite sseClients_createSocketForUser.
Qed.

Lemma subscribers_wf_qrSSE w k res st :
  subscribers_wf st -> subscribers_wf (snd (qrSSE w k res st)).
Proof.
  intros H. destruct (decide (k = EmptyString)) as [->|Hk]; [exact H|].
  intros k' clients. rewrite qrSSE_sseClients by done.
  destruct (decide (k = k')) as [<-|Hne].
  - rewrite lookup_insert_eq. intros [= <-]. split; [apply set_add_nonempty|].
    apply set_add_NoDup. destruct (sseClients st !! k) as [c|] eqn:Hc; simpl.
    + by destruct (H k c Hc).
    + apply NoDup_nil_2.
  - rewrite lookup_insert_ne by done. apply H.
Qed.

Lemma subscribers_wf_on_sse_close k res st :
  subscribers_wf st -> subscribers_wf (on_sse_close k res st).
Proof.
  intros H k' clients. unfold on_sse_close.
  destruct (sseClients st !! k) as [c|] eqn:Hc; [|apply H].
  destruct (Nat.eqb_spec (length (set_delete res c)) 0) as [He|Hne]; simpl.
  - destruct (decide (k = k')) as [<-|Hk]; [by rewrite lookup_delete_eq|].
    rewrite lookup_delete_ne by done. apply H.
  - destruct (decide (k = k')) as [<-|Hk].
    + rewrite lookup_insert_eq. intros [= <-]. split.
      * intros E. by rewrite E in Hne.
      * unfold set_delete. apply NoDup_filter. by destruct (H k c Hc).
    + rewrite lookup_insert_ne by done. apply H.
Qed.

Lemma reachable_subscribers_wf w st : reachable w st -> subscribers_wf st.
Proof.
  induction 1 as [|st l Hr IH He].
  - intros k clients. simpl. by rewrite lookup_empty.
  - pose proof (exec_sseClients w l st) as Hs.
    destruct l;
      try (intros k' clients; rewrite Hs; apply IH).
    + by apply subscribers_wf_qrSSE.
    + by apply subscribers_wf_on_sse_close.
Qed.

(** X10: in every reachable state each registered subscriber set is
    non-empty and holds no sink twice: the entry of a tenant is removed
    with its last sink. *)
Theorem subscriber_sets_nonempty_nodup w st k clients :
  reachable w st ->
  sseClients st !! k = Some clients ->
  clients <> [] /\ NoDup clients.
Proof. intros Hr H. exact (reachable_subscribers_wf w st Hr k clients H). Qed.

Lemma subscriber_sets_nonempty_nodup_witness :
  [1; 2] <> [] /\ NoDup [1; 2].
Proof.
  assert (sseClients alice_linked !! "a1b2" = Some [1; 2]) as H
    by (vm_compute; reflexivity).
  exact (subscriber_sets_nonempty_nodup demo_world alice_linked "a1b2" [1; 2]
           alice_linked_reachable H).
Defined.

(** X11: in a reachable state, subscribing a sink that is not yet
    subscribed and then closing it restores the subscriber sets, and
    closing a sink that is not subscribed changes nothing at all. *)
Theorem subscribe_then_close w k res st :
  reachable w st ->
  res ∉ default [] (sseClients st !! k) ->
  on_sse_close k res st = st /\
  (k <> EmptyString ->
   sseClients (on_sse_close k res (snd (qrSSE w k res st))) = sseClients st).
Proof.
  intros Hr Hin. pose proof (reachable_subscribers_wf w st Hr) as Hwf. split.
  - unfold on_sse_close. destruct (sseClients st !! k) as [c|] eqn:Hc; [|done].
    simpl in Hin. rewrite set_delete_absent by done.
    destruct (Hwf k c Hc) as [Hne _].
    destruct (Nat.eqb_spec (length c) 0) as [He|_].
    + by destruct c.
    + unfold set_sseClients. rewrite insert_id by done. by destruct st.
  - intros Hk. unfold on_sse_close. rewrite qrSSE_sseClients by done.
    rewrite lookup_insert_eq, set_delete_added by done.
    destruct (sseClients st !! k) as [c|] eqn:Hc; simpl.
    + destruct (Hwf k c Hc) as [Hne _].
      destruct (Nat.eqb_spec (length c) 0) as [He|_]; [by destruct c|].
      simpl. rewrite qrSSE_sseClients by done.
      rewrite insert_insert_eq. by apply insert_id.
    + rewrite qrSSE_sseClients by done. rewrite delete_insert_eq.
      by apply delete_id.
Qed.

Lemma subscribe_then_close_witness :
  on_sse_close "a1b2" 3 alice_linked = alice_linked /\
  ("a1b2" <> EmptyString ->
   sseClients (on_sse_close "a1b2" 3 (snd (qrSSE demo_world "a1b2" 3 alice_linked)))
     = sseClients alice_linked).
Proof.
  assert (3 ∉ default [] (sseClients alice_linked !! "a1b2")) as H.
  { assert (sseClients alice_linked !! "a1b2" = Some [1; 2]) as ->
      by (vm_compute; reflexivity).
    simpl. intros Hin. apply elem_of_cons in Hin as [Hin|Hin]; [discriminate|].
    apply elem_of_cons in Hin as [Hin|Hin]; [discriminate|].
    by apply elem_of_nil in Hin. }
  exact (subscribe_then_close demo_world "a1b2" 3 alice_linked alice_linked_reachable H).
Defined.

(* --------------------------------------------------------------------- *)
(* The registry in reachable states                                       *)
(* --------------------------------------------------------------------- *)







(* --------------------------------------------------------------------- *)
(* connection.update: linking code and open                               *)
(* --------------------------------------------------------------------- *)

(** X13: a connection.update whose connection is not "close" changes no
    table and calls no socket: a linking code or an open connection is
    only logged and published. *)
Theorem update_without_close_only_publishes w user update st :
  is_close update = false ->
  tables (on_connection_update w user update st) = tables st /\
  sock_calls (on_connection_update w user update st) = sock_calls st.
Proof.
  intros Hc.
  change (on_connection_update w user update st)
    with (on_close w user update (before_close w user update st)).
  unfold on_close. unfold is_close in Hc. rewrite Hc.
  split; [by destruct (quiet_before_close w user update st)|].
  unfold before_close, on_open, on_qr.
  repeat match goal with |- context [if ?b then _ else _] => destruct b end;
    by rewrite ?sock_calls_sendSSE, ?sock_calls_saveLog, ?sock_calls_sendSSE,
         ?sock_calls_saveLog.
Qed.

Lemma update_without_close_only_publishes_witness :
  tables (on_connection_update demo_world alice open_update alice_linked)
    = tables alice_linked /\
  sock_calls (on_connection_update demo_world alice open_update alice_linked)
    = sock_calls alice_linked.
Proof.
  exact (update_without_close_only_publishes demo_world alice open_update
           alice_linked eq_refl).
Defined.

Lemma on_close_trace w user update st :
  exists post, trace (on_close w user update st) = (trace st ++ post)%list.
Proof.
  unfold on_close.
  destruct (strict_eq_str _ "close"); [|exists []; by rewrite app_nil_r].
  destruct (strict_eq_num _ _).
  - rewrite cleanup_logged_out_eq.
    destruct (removal_spec w (apiKey user)
                (saveLog (user_id user) "logged_out"
                   (saveLog (user_id user) "connection_close" st)))
      as (_ & _ & _ & _ & _ & n & pub & E3 & _).
    unfold removal in E3. rewrite E3, without_session_calls. simpl.
    rewrite <- !app_assoc. by eexists.
  - unfold schedule_reconnect.
    destruct (reconnecting _ !! apiKey user) as [[]|]; simpl;
      rewrite <- ?app_assoc; by eexists.
Qed.

(** X14: when the tenant has subscribers, an update with a linking code
    writes each of them the qr event, whose payload carries the data URL
    of the code, and an update reporting an open connection writes each of
    them the connected event and the qr_cleared event. *)
Theorem update_publishes_to_subscribers w user update st clients :
  sseClients st !! apiKey user = Some clients ->
  exists new,
    trace (on_connection_update w user update st) = (trace st ++ new)%list /\
    (truthy (qr update) = true ->
     exists ts, forall res, res ∈ clients ->
       written "qr"
         (stringify w (JObj [("qrDataUrl", JStr (qrStringToDataUrl w (qr update)));
                             ("ts", JStr ts)])) new res) /\
    (strict_eq_str (connection update) "open" = true ->
     forall res, res ∈ clients ->
       (exists ok, In (SseWrite res (event_line "connected") ok) new) /\
       (exists ok, In (SseWrite res (event_line "qr_cleared") ok) new)).
Proof.
  intros Hc. unfold on_connection_update. cbv zeta.
  set (st1 := saveLog (user_id user) "connection_update" st).
  assert (quiet st st1) as Q1 by apply quiet_saveLog.
  assert (trace st1 = (trace st ++ [LogCreate (user_id user) "connection_update"])%list)
    as E1 by reflexivity.
  clearbody st1.
  (* the linking code *)
  assert (exists n2,
            trace (on_qr w user update st1) = (trace st1 ++ n2)%list /\
            (truthy (qr update) = true ->
             exists ts, forall res, res ∈ clients ->
               written "qr"
                 (stringify w
                    (JObj [("qrDataUrl", JStr (qrStringToDataUrl w (qr update)));
                           ("ts", JStr ts)])) n2 res)) as (n2 & E2 & W2).
  { unfold on_qr. destruct (truthy (qr update)).
    2:{ exists []. split; [by rewrite app_nil_r | done]. }
    cbv zeta.
    set (s := saveLog (user_id user) "qr_generated" st1).
    assert (sseClients s !! apiKey user = Some clients) as Hs
      by (unfold s; simpl; by rewrite (quiet_sseClients _ _ Q1)).
    destruct (sendSSE_writes w (apiKey user) "qr"
                (JObj [("qrDataUrl", JStr (qrStringToDataUrl w (qr update)));
                       ("ts", JStr (now_iso w (clock s)))]) s clients Hs)
      as (n & E & W).
    exists (LogCreate (user_id user) "qr_generated" :: n). split.
    - rewrite E. unfold s. simpl. by rewrite <- app_assoc.
    - intros _. exists (now_iso w (clock s)). intros res Hin.
      destruct (W res Hin) as (ok & H1 & H2). exists ok. split; [by right|].
      intros Hok. destruct (H2 Hok) as (ok2 & H3). exists ok2. by right. }
  pose proof (quiet_trans _ _ _ Q1 (quiet_on_qr w user update st1)) as Q2.
  set (st2 := on_qr w user update st1) in *. clearbody st2.
  (* the open connection *)
  assert (exists n3,
            trace (on_open w user update st2) = (trace st2 ++ n3)%list /\
            (strict_eq_str (connection update) "open" = true ->
             forall res, res ∈ clients ->
               (exists ok, In (SseWrite res (event_line "connected") ok) n3) /\
               (exists ok, In (SseWrite res (event_line "qr_cleared") ok) n3)))
    as (n3 & E3 & W3).
  { unfold on_open. destruct (strict_eq_str (connection update) "open").
    2:{ exists []. split; [by rewrite app_nil_r | done]. }
    cbv zeta.
    assert (sseClients st2 !! apiKey user = Some clients) as Hs2
      by (by rewrite (quiet_sseClients _ _ Q2)).
    destruct (sendSSE_writes w (apiKey user) "connected" (ts_obj w st2) st2 clients Hs2)
      as (na & Ea & Wa).
    set (sa := sendSSE w (apiKey user) "connected" (ts_obj w st2) st2) in *.
    set (sb := saveLog (user_id user) "connection_open" sa).
    assert (sseClients sb !! apiKey user = Some clients) as Hsb.
    { unfold sb. simpl. unfold sa.
      by rewrite (quiet_sseClients _ _ (quiet_sendSSE _ _ _ _ _)). }
    destruct (sendSSE_writes w (apiKey user) "qr_cleared" (JObj []) sb clients Hsb)
      as (nb & Eb & Wb).
    exists (na ++ LogCreate (user_id user) "connection_open" :: nb)%list. split.
    - rewrite Eb. unfold sb. simpl. rewrite Ea. rewrite <- !app_assoc. done.
    - intros _ res Hin. split.
      + destruct (Wa res Hin) as (ok & H1 & _). exists ok. apply in_or_app. by left.
      + destruct (Wb res Hin) as (ok & H1 & _). exists ok. apply in_or_app. right.
        by right. }
  set (st3 := on_open w user update st2) in *. clearbody st3.
  destruct (on_close_trace w user update st3) as (n4 & E4).
  exists ([LogCreate (user_id user) "connection_update"] ++ n2 ++ n3 ++ n4)%list.
  split; [rewrite E4, E3, E2, E1; by rewrite <- !app_assoc|]. split.
  - intros Hq. destruct (W2 Hq) as (ts & Hts). exists ts. intros res Hin.
    destruct (Hts res Hin) as (ok & H1 & H2). exists ok. split.
    + apply in_or_app. right. apply in_or_app. by left.
    + intros Hok. destruct (H2 Hok) as (ok2 & H3). exists ok2.
      apply in_or_app. right. apply in_or_app. by left.
  - intros Ho res Hin. destruct (W3 Ho res Hin) as [(ok & H1) (ok' & H2)]. split.
    + exists ok. apply in_or_app. right. apply in_or_app. right. apply in_or_app.
      by left.
    + exists ok'. apply in_or_app. right. apply in_or_app. right. apply in_or_app.
      by left.
Qed.

Lemma update_publishes_to_subscribers_witness :
  exists new,
    trace (on_connection_update demo_world alice open_update alice_linked) =
      (trace alice_linked ++ new)%list /\
    forall res, res ∈ [1; 2] ->
      (exists ok, In (SseWrite res (event_line "connected") ok) new) /\
      (exists ok, In (SseWrite res (event_line "qr_cleared") ok) new).
Proof.
  assert (sseClients alice_linked !! apiKey alice = Some [1; 2]) as H
    by (vm_compute; reflexivity).
  destruct (update_publishes_to_subscribers demo_world alice open_update alice_linked
              [1; 2] H) as (new & E & _ & Ho).
  exists new. split; [exact E|]. exact (Ho eq_refl).
Defined.
(* --------------------------------------------------------------------- *)
(* Reconnection: the timer runs out                                       *)
(* --------------------------------------------------------------------- *)

Lemma reconnect_callback_guard w k st :
  timers (reconnect_callback w k st) = timers st /\
  reconnecting (reconnect_callback w k st) = <[k := false]> (reconnecting st).
Proof.
  unfold reconnect_callback. cbv zeta. simpl.
  destruct (findOne w (clock st) k) as [user|]; [|done].
  destruct (idle_createSocketForUser w user (emit (UserLookup k) st)) as [T R].
  by rewrite T, R.
Qed.

(** X15: when a pending reconnect timer of a tenant runs out, the timer is
    gone and the guard is lowered whatever the user lookup and the
    connection attempt did; a transient close that follows sets a timer
    again, so a tenant whose connection keeps closing is retried without
    end. *)
Theorem timer_lowers_guard w user update st :
  reachable w st ->
  0 < pending (apiKey user) st ->
  is_close update = true -> terminal w update = false ->
  pending (apiKey user) (exec w (LTimer (apiKey user)) st) = 0 /\
  reconnecting (exec w (LTimer (apiKey user)) st) !! apiKey user = Some false /\
  pending (apiKey user)
    (exec w (LConnectionUpdate user update) (exec w (LTimer (apiKey user)) st)) = 1.
Proof.
  intros Hr Hp Hc Ht.
  destruct (reachable_timers_guarded w st Hr (apiKey user)) as [Hle _].
  set (k := apiKey user) in *.
  destruct (reconnect_callback_guard w k (set_timers (remove_timer k) st)) as [T R].
  assert (pending k (exec w (LTimer k) st) = 0) as P0.
  { unfold exec. unfold pending at 1. rewrite T.
    fold (pending k (set_timers (remove_timer k) st)).
    rewrite pending_remove_timer, String.eqb_refl. lia. }
  assert (reconnecting (exec w (LTimer k) st) !! k = Some false) as G0.
  { unfold exec. rewrite R. apply lookup_insert_eq. }
  split; [exact P0|]. split; [exact G0|].
  set (st1 := exec w (LTimer k) st) in *. clearbody st1.
  unfold exec.
  destruct (transient_close_calm w user update st1 Hc Ht) as [-> _].
  pose proof (quiet_at_close w user update st1) as Hq.
  rewrite pending_schedule_reconnect.
  rewrite (quiet_reconnecting _ _ Hq). fold k. rewrite G0.
  rewrite (idle_pending k _ _ (quiet_idle _ _ Hq)), P0.
  by rewrite String.eqb_refl.
Qed.

Lemma alice_waiting_reachable : reachable demo_world alice_waiting.
Proof.
  unfold alice_waiting. apply reach_step; [apply alice_linked_reachable | exact I].
Defined.

Lemma timer_lowers_guard_witness :
  pending "a1b2" (exec demo_world (LTimer "a1b2") alice_waiting) = 0 /\
  reconnecting (exec demo_world (LTimer "a1b2") alice_waiting) !! "a1b2" = Some false /\
  pending "a1b2"
    (exec demo_world (LConnectionUpdate alice dropped_close)
       (exec demo_world (LTimer "a1b2") alice_waiting)) = 1.
Proof.
  assert (0 < pending (apiKey alice) alice_waiting) as H by (vm_compute; lia).
  exact (timer_lowers_guard demo_world alice dropped_close alice_waiting
           alice_waiting_reachable H eq_refl eq_refl).
Defined.

(* --------------------------------------------------------------------- *)
(* Connecting a tenant that has no session                                *)
(* --------------------------------------------------------------------- *)





(* --------------------------------------------------------------------- *)
(* Profile updates, message history, media                                *)
(* --------------------------------------------------------------------- *)

(** X18: the two profile routes do not fail when the socket rejects: with
    a session and a name, updateProfileName answers success with the
    socket's result, or with null when the socket rejects, and writes its
    audit entry in either case.  With a session and a picture,
    updateProfilePicture first decodes the picture: when Buffer.from
    throws, the answer is the 500 error and nothing was done; otherwise
    the socket is called once with the tenant's api key as the account and
    the decoded picture, and the route answers success and writes its
    audit entry whatever the socket did. *)
Theorem profile_updates_ignore_rejection w req st sock :
  sessions st !! apiKey (req_user req) = Some sock ->
  (truthy (assoc "name" (body req)) = true ->
   fst (updateProfileName w req st) =
     success [("result",
               match sock_call w (clock st) sock "updateProfileName"
                       [assoc "name" (body req)] with
               | Resolved v => v
               | Rejected _ => JNull
               end)] /\
   logs (snd (updateProfileName w req st)) =
     (logs st ++ [LogCreate (user_id (req_user req)) "profile_update"])%list) /\
  (truthy (assoc "base64" (body req)) = true ->
   (forall err,
      buffer_from_base64 w (assoc "base64" (body req)) = Rejected err ->
      updateProfilePicture w req st = (error500 err, st)) /\
   (forall buffer,
      buffer_from_base64 w (assoc "base64" (body req)) = Resolved buffer ->
      fst (updateProfilePicture w req st) = success [] /\
      logs (snd (updateProfilePicture w req st)) =
        (logs st ++ [LogCreate (user_id (req_user req)) "profile_picture_update"])%list /\
      exists o,
        sock_calls (snd (updateProfilePicture w req st)) =
          (sock_calls st ++
           [SockCall sock "updateProfilePicture"
              [JStr (apiKey (req_user req) +:+ "@s.whatsapp.net"); buffer] o])%list)).
Proof.
  intros Hs. split.
  - intros Hn. unfold updateProfileName, handler. rewrite Hs, Hn. simpl.
    unfold bind, try_catch, call, log, modify, ret.
    destruct (sock_call w (clock st) sock "updateProfileName" _); simpl;
      (split; [done|]); unfold saveLog; rewrite !logs_emit; simpl;
      by rewrite app_nil_r.
  - intros Hb. split.
    + intros err He. unfold updateProfilePicture, handler. by rewrite Hs, Hb, He.
    + intros buffer He. unfold updateProfilePicture, handler. rewrite Hs, Hb, He. simpl.
      unfold bind, try_catch, call, log, modify, ret.
      destruct (sock_call w (clock st) sock "updateProfilePicture" _) eqn:Ho; simpl;
        (split; [done|]); unfold saveLog; rewrite !logs_emit, !sock_calls_emit; simpl;
        rewrite !app_nil_r; (split; [done|]); by eexists.
Qed.

Lemma profile_updates_ignore_rejection_witness :
  (fst (updateProfilePicture demo_world (alice_req [("base64", JStr "aGk=")]) alice_linked)
     = success [] /\
   logs (snd (updateProfilePicture demo_world (alice_req [("base64", JStr "aGk=")])
                alice_linked)) =
     (logs alice_linked ++ [LogCreate 7 "profile_picture_update"])%list) /\
  updateProfilePicture demo_world (alice_req [("base64", JNum 7)]) alice_linked =
    (error500 type_error, alice_linked).
Proof.
  assert (sessions alice_linked !! "a1b2" = Some 0) as H by (vm_compute; reflexivity).
  destruct (profile_updates_ignore_rejection demo_world
              (alice_req [("base64", JStr "aGk=")]) alice_linked 0 H) as [_ Hp].
  destruct (profile_updates_ignore_rejection demo_world
              (alice_req [("base64", JNum 7)]) alice_linked 0 H) as [_ Hq].
  destruct (Hp eq_refl) as [_ Hok]. destruct (Hq eq_refl) as [Hbad _].
  destruct (Hok (JStr "aGk=") eq_refl) as (H1 & H2 & _).
  exact (conj (conj H1 H2) (Hbad type_error eq_refl)).
Defined.

(** X19: with a session, getMessages answers 400 "jid required" and does
    nothing when the query has no jid; when the socket has no
    fetchMessages function it answers an empty list without calling the
    socket; otherwise it calls fetchMessages once with the jid and the
    parsed count, which is parsed from "20" when the query gives none. *)
Theorem getMessages_fallbacks w req st sock :
  sessions st !! apiKey (req_user req) = Some sock ->
  (truthy (assoc "jid" (query req)) = false ->
   getMessages w req st = (error 400 "jid required", st)) /\
  (truthy (assoc "jid" (query req)) = true ->
   has_fetchMessages w sock = false ->
   getMessages w req st = (Json 200 (JObj [("messages", JArr [])]), st)) /\
  (truthy (assoc "jid" (query req)) = true ->
   has_fetchMessages w sock = true ->
   exists count o,
     sock_calls (snd (getMessages w req st)) =
       (sock_calls st ++
        [SockCall sock "fetchMessages" [assoc "jid" (query req); count] o])%list /\
     (truthy (assoc "count" (query req)) = true ->
      count = parseInt w (assoc "count" (query req))) /\
     (truthy (assoc "count" (query req)) = false ->
      count = parseInt w (JStr "20"))).
Proof.
  intros Hs. split; [|split].
  - intros Hj. unfold getMessages, handler. by rewrite Hs, Hj.
  - intros Hj Hf. unfold getMessages, handler. by rewrite Hs, Hj, Hf.
  - intros Hj Hf. unfold getMessages, handler. rewrite Hs, Hj, Hf. simpl.
    unfold bind, call, ret.
    exists (parseInt w (js_or (assoc "count" (query req)) (JStr "20"))).
    exists (sock_call w (clock st) sock "fetchMessages"
              [assoc "jid" (query req);
               parseInt w (js_or (assoc "count" (query req)) (JStr "20"))]).
    split.
    + destruct (sock_call w (clock st) sock "fetchMessages" _); simpl;
        by rewrite sock_calls_emit.
    + unfold js_or. split; intros Hc; by rewrite Hc.
Qed.

Lemma getMessages_fallbacks_witness :
  getMessages demo_world (mkRequest alice [] [("jid", JStr "1@s.whatsapp.net")])
    alice_linked = (Json 200 (JObj [("messages", JArr [])]), alice_linked).
Proof.
  assert (sessions alice_linked !! "a1b2" = Some 0) as H by (vm_compute; reflexivity).
  destruct (getMessages_fallbacks demo_world
              (mkRequest alice [] [("jid", JStr "1@s.whatsapp.net")]) alice_linked 0 H)
    as (_ & H2 & _).
  exact (H2 eq_refl eq_refl).
Defined.

(** X20: with a session, sendMedia checks the recipient before the media:
    without "to" it answers 400 "to required", with "to" but neither url
    nor base64 it answers 400 "url or base64 required", both without any
    effect.  When the download of the url is rejected it answers the 500
    error of the download, calls no socket and writes no audit entry. *)
Theorem sendMedia_validation w req st sock :
  sessions st !! apiKey (req_user req) = Some sock ->
  (truthy (assoc "to" (body req)) = false ->
   sendMedia w req st = (error 400 "to required", st)) /\
  (truthy (assoc "to" (body req)) = true ->
   truthy (assoc "url" (body req)) = false ->
   truthy (assoc "base64" (body req)) = false ->
   sendMedia w req st = (error 400 "url or base64 required", st)) /\
  (forall err,
     truthy (assoc "to" (body req)) = true ->
     truthy (assoc "url" (body req)) = true ->
     http_get w (clock st) (assoc "url" (body req)) = Rejected err ->
     fst (sendMedia w req st) = error500 err /\
     sock_calls (snd (sendMedia w req st)) = sock_calls st /\
     logs (snd (sendMedia w req st)) = logs st).
Proof.
  intros Hs. split; [|split].
  - intros Ht. unfold sendMedia, handler. by rewrite Hs, Ht.
  - intros Ht Hu Hb. unfold sendMedia, handler. by rewrite Hs, Ht, Hu, Hb.
  - intros err Ht Hu Hg. unfold sendMedia, handler. rewrite Hs, Ht, Hu. simpl.
    unfold bind, fetch. rewrite Hg. simpl.
    rewrite sock_calls_emit, logs_emit. simpl. by rewrite !app_nil_r.
Qed.

Lemma sendMedia_validation_witness :
  sendMedia demo_world (alice_req [("url", JStr "http://x/y.png")]) alice_linked
    = (error 400 "to required", alice_linked).
Proof.
  assert (sessions alice_linked !! "a1b2" = Some 0) as H by (vm_compute; reflexivity).
  destruct (sendMedia_validation demo_world (alice_req [("url", JStr "http://x/y.png")])
              alice_linked 0 H) as [H1 _].
  exact (H1 eq_refl).
Defined.

(** X21: when a request to sendMedia carries a truthy url, its base64 is
    never read: two requests of the same user that agree on to, url,
    filename and caption are answered alike and leave the same state. *)
Theorem sendMedia_url_before_base64 w req req' st :
  req_user req = req_user req' ->
  assoc "to" (body req) = assoc "to" (body req') ->
  assoc "url" (body req) = assoc "url" (body req') ->
  assoc "filename" (body req) = assoc "filename" (body req') ->
  assoc "caption" (body req) = assoc "caption" (body req') ->
  truthy (assoc "url" (body req)) = true ->
  sendMedia w req st = sendMedia w req' st.
Proof.
  intros Eu Et El Ef Ec Hu. unfold sendMedia, handler.
  rewrite <- Eu, <- Et, <- El, <- Ef, <- Ec.
  destruct (sessions st !! apiKey (req_user req)); [|done].
  destruct (truthy (assoc "to" (body req))); simpl; [|done].
  by rewrite Hu.
Qed.

Lemma sendMedia_url_before_base64_witness :
  sendMedia demo_world
    (alice_req [("to", JStr "1@s.whatsapp.net"); ("url", JStr "http://x/y.png");
                ("base64", JStr "aGk=")]) alice_linked =
  sendMedia demo_world
    (alice_req [("to", JStr "1@s.whatsapp.net"); ("url", JStr "http://x/y.png")])
    alice_linked.
Proof.
  exact (sendMedia_url_before_base64 demo_world
           (alice_req [("to", JStr "1@s.whatsapp.net"); ("url", JStr "http://x/y.png");
                       ("base64", JStr "aGk=")])
           (alice_req [("to", JStr "1@s.whatsapp.net"); ("url", JStr "http://x/y.png")])
           alice_linked eq_refl eq_refl eq_refl eq_refl eq_refl eq_refl).
Defined.
(* --------------------------------------------------------------------- *)
(* Tenants do not touch each other                                        *)
(* --------------------------------------------------------------------- *)








(* --------------------------------------------------------------------- *)
(* Whose socket a command calls                                           *)
(* --------------------------------------------------------------------- *)

Lemma Forall_zip_with_sends sock message (tos : list JsVal) (rs : list JsVal) :
  Forall (fun e => exists method args o,
            e = SockCall sock method args o /\ Some "sendMessage" = Some method)
    (zip_with (fun to r => send_to sock message to (Resolved r)) tos rs).
Proof.
  revert rs. induction tos as [|to tos IH]; intros [|r rs]; simpl; try constructor.
  - by eexists _, _, _.
  - apply IH.
Qed.

(** X23: every call a command makes goes to the socket registered for the
    caller, with the one method of its route; getChats and getContacts
    call nothing. *)
Theorem commands_call_own_socket w c req st sock :
  sessions st !! apiKey (req_user req) = Some sock ->
  exists new,
    sock_calls (snd (dispatch w c req st)) = (sock_calls st ++ new)%list /\
    Forall (fun e => exists method args o,
              e = SockCall sock method args o /\ route_method c = Some method) new.
Proof.
  intros Hs.
  assert (exists new,
            sock_calls (snd (dispatch w Broadcast req st)) = (sock_calls st ++ new)%list /\
            Forall (fun e => exists method args o,
                      e = SockCall sock method args o /\
                      route_method Broadcast = Some method) new) as Hb.
  { simpl. unfold broadcast, handler. rewrite Hs.
    destruct (assoc "numbers" (body req)) as [| | | | |tos|];
      try (exists []; split; [by rewrite app_nil_r | constructor]).
    destruct (truthy (assoc "message" (body req)));
      [|exists []; split; [by rewrite app_nil_r | constructor]].
    simpl. unfold bind.
    destruct (broadcast_loop_runs w (user_id (req_user req)) sock
                (assoc "message" (body req)) tos [] st)
      as [(rs & st' & E & L & C)|(sent & to & rest & rs & err & st' & D & E & L & C)];
      rewrite E; simpl; rewrite C; eexists; (split; [reflexivity|]).
    - apply Forall_zip_with_sends.
    - apply Forall_app. split; [apply Forall_zip_with_sends|].
      constructor; [|constructor]. by eexists _, _, _. }
  destruct c; try exact Hb; clear Hb; unfold_routes; unfold_monad; rewrite Hs;
    repeat case_match; simplify_eq; simpl;
    unfold sock_calls, saveLog, emit; simpl; rewrite ?List.filter_app; simpl;
    rewrite ?app_nil_r;
    first [ exists []; split; [by rewrite app_nil_r | constructor]
          | eexists [_]; split; [reflexivity|];
            constructor; [by eexists _, _, _ | constructor] ].
Qed.

Lemma commands_call_own_socket_witness :
  exists new,
    sock_calls (snd (dispatch demo_world GroupPromote
                       (alice_req [("groupId", JStr "g@g.us");
                                   ("participant", JStr "1@s.whatsapp.net")])
                       alice_linked)) = (sock_calls alice_linked ++ new)%list /\
    Forall (fun e => exists method args o,
              e = SockCall 0 method args o /\
              route_method GroupPromote = Some method) new.
Proof.
  assert (sessions alice_linked !! "a1b2" = Some 0) as H by (vm_compute; reflexivity).
  exact (commands_call_own_socket demo_world GroupPromote
           (alice_req [("groupId", JStr "g@g.us");
                       ("participant", JStr "1@s.whatsapp.net")])
           alice_linked 0 H).
Defined.

(* --------------------------------------------------------------------- *)
(* Logging a socket out                                                   *)
(* --------------------------------------------------------------------- *)

Lemma sock_calls_without_session w k st :
  sock_calls (without_session w k st) =
  (sock_calls st ++
   match sessions st !! k with
   | Some sock => [SockCall sock "logout" [] (sock_call w (clock st) sock "logout" [])]
   | None => []
   end)%list.
Proof.
  unfold without_session. destruct (sessions st !! k) as [sock|];
    [|by rewrite app_nil_r].
  unfold call. destruct (sock_call w (clock st) sock "logout" []);
    unfold sock_calls; simpl; by rewrite List.filter_app.
Qed.

Lemma sock_calls_rmSessionDir w k st :
  sock_calls (rmSessionDir w k st) = sock_calls st.
Proof.
  destruct (rmSessionDir_spec w k st) as (_ & _ & _ & _ & _ & E & _).
  unfold sock_calls. rewrite E, List.filter_app. simpl. by rewrite app_nil_r.
Qed.

(** X24: the logout route and a terminal close log out the socket that the
    registry holds for the tenant at that moment, once, and call no socket
    when the registry holds none.  Whatever the socket answers, resolved
    or rejected, the cleanup goes on in the same way: the registry entry
    is removed, fs.rmSync is attempted once on the tenant's directory
    right after the logout call, and then the subscribers of the tenant
    are written the logged_out event; the logout route ends with its
    audit entry. *)
Theorem removal_logs_out_registered_socket w req user update st :
  sock_calls (snd (logout w req st)) =
    (sock_calls st ++
     match sessions st !! apiKey (req_user req) with
     | Some sock =>
         [SockCall sock "logout" [] (sock_call w (clock st) sock "logout" [])]
     | None => []
     end)%list /\
  (is_close update = true -> terminal w update = true ->
   exists o,
     sock_calls (on_connection_update w user update st) =
       (sock_calls st ++
        match sessions st !! apiKey user with
        | Some sock => [SockCall sock "logout" [] o]
        | None => []
        end)%list) /\
  (sessions (snd (logout w req st)) = delete (apiKey (req_user req)) (sessions st) /\
   exists n pub,
     trace (snd (logout w req st)) =
       (trace st ++
        match sessions st !! apiKey (req_user req) with
        | Some sock =>
            [SockCall sock "logout" [] (sock_call w (clock st) sock "logout" [])]
        | None => []
        end ++
        RmSync (apiKey (req_user req)) (negb (rm_fails w n (apiKey (req_user req)))) ::
        pub ++ [LogCreate (user_id (req_user req)) "logout"])%list /\
     forall clients, sseClients st !! apiKey (req_user req) = Some clients ->
       forall res, res ∈ clients ->
         written "logged_out" (sse_payload w (JObj [])) pub res) /\
  (is_close update = true -> terminal w update = true ->
   sessions (on_connection_update w user update st) = delete (apiKey user) (sessions st) /\
   exists o n pub,
     trace (on_connection_update w user update st) =
       (trace (at_close w user update st) ++
        LogCreate (user_id user) "logged_out" ::
        match sessions st !! apiKey user with
        | Some sock => [SockCall sock "logout" [] o]
        | None => []
        end ++
        RmSync (apiKey user) (negb (rm_fails w n (apiKey user))) :: pub)%list /\
     forall clients, sseClients st !! apiKey user = Some clients ->
       forall res, res ∈ clients ->
         written "logged_out" (sse_payload w (JObj [])) pub res).
Proof.
  assert (sock_calls (at_close w user update st) = sock_calls st) as Hquiet_calls.
  { unfold at_close.
    rewrite sock_calls_saveLog. unfold before_close, on_open, on_qr.
    repeat match goal with |- context [if ?b then _ else _] => destruct b end;
      by rewrite ?sock_calls_sendSSE, ?sock_calls_saveLog, ?sock_calls_sendSSE,
           ?sock_calls_saveLog. }
  split; [|split; [|split]].
  - rewrite logout_eq. rewrite sock_calls_saveLog, sock_calls_sendSSE.
    rewrite sock_calls_rmSessionDir. apply sock_calls_without_session.
  - intros Hc Ht. rewrite (on_connection_update_close _ _ _ _ Hc), Ht.
    rewrite cleanup_logged_out_eq, sock_calls_sendSSE.
    set (s := saveLog (user_id user) "logged_out" (at_close w user update st)).
    rewrite sock_calls_rmSessionDir, sock_calls_without_session.
    assert (quiet st s) as Hq
      by (eapply quiet_trans; [apply quiet_at_close | apply quiet_saveLog]).
    rewrite (quiet_sessions _ _ Hq).
    assert (sock_calls s = sock_calls st) as ->.
    { unfold s. by rewrite sock_calls_saveLog. }
    destruct (sessions st !! apiKey user) as [sock|];
      [by eexists | by exists (Resolved JUndefined)].
  - rewrite logout_eq. fold (removal w (apiKey (req_user req)) st).
    destruct (removal_spec w (apiKey (req_user req)) st)
      as (HS & _ & _ & _ & _ & n & pub & E & _ & _ & W).
    split; [exact HS|]. exists n, pub. split; [|exact W].
    simpl. rewrite E, without_session_calls. by rewrite <- !app_assoc.
  - intros Hc Ht. rewrite (on_connection_update_close _ _ _ _ Hc), Ht.
    rewrite cleanup_logged_out_eq.
    set (s := saveLog (user_id user) "logged_out" (at_close w user update st)).
    fold (removal w (apiKey user) s).
    assert (quiet st s) as Hq
      by (eapply quiet_trans; [apply quiet_at_close | apply quiet_saveLog]).
    destruct (removal_spec w (apiKey user) s)
      as (HS & _ & _ & _ & _ & n & pub & E & _ & _ & W).
    split; [by rewrite HS, (quiet_sessions _ _ Hq)|].
    rewrite without_session_calls, (quiet_sessions _ _ Hq) in E.
    rewrite (quiet_sseClients _ _ Hq) in W.
    exists (match sessions st !! apiKey user with
            | Some sock => sock_call w (clock s) sock "logout" []
            | None => Resolved JUndefined
            end), n, pub.
    split; [|exact W]. rewrite E. unfold s at 1. simpl. rewrite <- !app_assoc. simpl.
    by destruct (sessions st !! apiKey user).
Qed.

Lemma removal_logs_out_registered_socket_witness :
  (exists o,
     sock_calls (on_connection_update demo_world alice terminal_close alice_linked) =
       (sock_calls alice_linked ++
        match sessions alice_linked !! apiKey alice with
        | Some sock => [SockCall sock "logout" [] o]
        | None => []
        end)%list) /\
  sessions (on_connection_update demo_world alice terminal_close alice_linked) =
    delete (apiKey alice) (sessions alice_linked).
Proof.
  destruct (removal_logs_out_registered_socket demo_world (alice_req []) alice
              terminal_close alice_linked) as (_ & H & _ & H').
  destruct (H' eq_refl eq_refl) as [HS _].
  exact (conj (H eq_refl eq_refl) HS).
Defined.

(* --------------------------------------------------------------------- *)
(* Downloading media                                                      *)
(* --------------------------------------------------------------------- *)


